(** * The generic model manager of [app/db/managers/base.py]

    A shallow embedding of [ModelManager]: the binding of a manager class to
    its entity class ([__init_subclass__]) and the record-access operations
    ([create], [get], [get_by], [get_or_create], [update_or_create],
    [no_autoflush], ...), run against a model of the unit of work they are
    handed at construction time. *)

From stdpp Require Import gmap strings list fin_maps sorting.
From Stdlib Require Import ZArith String Ascii.

Local Open Scope string_scope.
Local Open Scope Z_scope.
Local Open Scope list_scope.

(** ** Python values, keyword arguments, exceptions *)

(** Column values and attribute values. *)
Inductive Value : Type :=
  | VNone
  | VBool (b : bool)
  | VInt (z : Z)
  | VStr (s : string).

#[global] Instance Value_eq_dec : EqDecision Value.
Proof. solve_decision. Defined.

(** A [**kwargs] dictionary and an instance's attribute dictionary. *)
Abbreviation Kwargs := (gmap string Value).

(** The exception classes that the manager can meet.  [StatementError] is
    [sqlalchemy.exc.StatementError]; [DBAPIError] and its children derive
    from it, [InvalidRequestError] and [MultipleResultsFound] do not. *)
Inductive ExnClass : Type :=
  | StatementError
  | DBAPIError
  | IntegrityError
  | OperationalError
  | InvalidRequestError
  | MultipleResultsFound
  | TypeError
  | AttributeError
  | OtherException (name : string).

#[global] Instance ExnClass_eq_dec : EqDecision ExnClass.
Proof. solve_decision. Defined.

(** An exception object: its class and the text [str(e)] gives. *)
Record Exn : Type := MkExn { exn_class : ExnClass; exn_str : string }.

#[global] Instance Exn_eq_dec : EqDecision Exn.
Proof. solve_decision. Defined.

(** [isinstance(e, SQLAlchemyStatementError)], the test of the [except]
    clause in [_maybe_get_by]. *)
Definition is_statement_error (e : Exn) : bool :=
  match exn_class e with
  | StatementError | DBAPIError | IntegrityError | OperationalError => true
  | _ => false
  end.

(** Python's [needle in haystack] on strings. *)
Definition str_contains (needle haystack : string) : bool :=
  match String.index 0 needle haystack with
  | Some _ => true
  | None => false
  end.

(** The message fragment [_maybe_get_by] looks for. *)
Definition unset_column_marker : string :=
  "no value has been set for this column".

(** ** Binding a manager class to its entity class *)

(** The entity-type descriptor: the class name and the primary-key column. *)
Record Model : Type := MkModel { model_name : string; model_pk : string }.

#[global] Instance Model_eq_dec : EqDecision Model.
Proof. solve_decision. Defined.

(** What a class attribute or a generic argument can be, as far as
    [__init_subclass__] tells them apart. *)
Inductive PyObj : Type :=
  | PyEntity (m : Model)          (* a class deriving from [Base] *)
  | PyClass (name : string)       (* any other class *)
  | PyTypeVar (name : string)     (* a type variable such as [ModelT] *)
  | PyAlias (name : string) (params : list string)
                                  (* a typing alias such as [Optional[T]], with
                                     the type variables in it *)
  | PyNone
  | PyOther (truthy : bool).      (* any other object, without type variables *)

#[global] Instance PyObj_eq_dec : EqDecision PyObj.
Proof. solve_decision. Defined.

Definition py_truthy (o : PyObj) : bool :=
  match o with
  | PyEntity _ | PyClass _ | PyTypeVar _ | PyAlias _ _ => true
  | PyNone => false
  | PyOther b => b
  end.

(** [isinstance(o, type)] *)
Definition py_is_type (o : PyObj) : bool :=
  match o with
  | PyEntity _ | PyClass _ => true
  | _ => false
  end.

(** [issubclass(o, Base)], asked only of types. *)
Definition py_is_base_subclass (o : PyObj) : bool :=
  match o with
  | PyEntity _ => true
  | _ => false
  end.

(** What one entry of [__orig_bases__] is, and so what [get_origin(base)]
    returns for it: [None] for a class written without subscript, the
    subscripted class otherwise. *)
Inductive Origin : Type :=
  | OriginNone                      (* a plain class other than [Generic] *)
  | PlainGeneric                    (* [Generic] itself, without subscript *)
  | OriginGeneric                   (* [Generic[...]] *)
  | OriginModelManager              (* [ModelManager[...]] *)
  | OriginManagerSubclass (name : string)  (* [SomeManager[...]] *)
  | OriginOtherClass (name : string).      (* e.g. [Paged[...]] *)

(** One entry of [cls.__orig_bases__]: its origin and [get_args(base)]. *)
Record OrigBase : Type := MkOrigBase { ob_origin : Origin; ob_args : list PyObj }.

(** A subclass as [__init_subclass__] finds it, once [type.__new__] has
    built the class.  [cd_model] is [getattr(cls, "model", None)] with
    [None] for a missing attribute: the value declared in the class body
    or inherited from a parent manager.  [cd_orig_bases] is
    [cls.__orig_bases__], which every subclass of the generic
    [ModelManager] resolves: its own when a base of the class statement
    is subscripted, that of a parent otherwise.  [cd_own_orig_bases] is
    ["__orig_bases__" in cls.__dict__], [cd_plain_generic] is
    [Generic in cls.__bases__], and [cd_kwargs] holds the names of the
    keywords of the class statement, which the hook receives. *)
Record ClassDef : Type := MkClassDef {
  cd_name : string;
  cd_model : option PyObj;
  cd_orig_bases : list OrigBase;
  cd_own_orig_bases : bool;
  cd_plain_generic : bool;
  cd_kwargs : list string
}.

(** The outcome of running code that touches no session. *)
Inductive PyResult (A : Type) : Type :=
  | Returned (a : A)
  | Raised (e : Exn).
Arguments Returned {A} a.
Arguments Raised {A} e.

(** [origin is ModelManager or (isinstance(origin, type) and
    issubclass(origin, ModelManager))] *)
Definition origin_is_manager (o : Origin) : bool :=
  match o with
  | OriginModelManager | OriginManagerSubclass _ => true
  | OriginNone | PlainGeneric | OriginGeneric | OriginOtherClass _ => false
  end.

(** [args and isinstance(args[0], type) and issubclass(args[0], Base)] *)
Definition usable_generic_arg (args : list PyObj) : option PyObj :=
  match args with
  | a :: _ => if py_is_type a && py_is_base_subclass a then Some a else None
  | [] => None
  end.

(** The [for base in cls.__orig_bases__] loop: the first base that is a
    parameterised manager with an entity class as first argument sets
    [cls.model] and breaks; with no such base the loop just ends. *)
Fixpoint infer_model (bases : list OrigBase) : option PyObj :=
  match bases with
  | [] => None
  | base :: rest =>
      if origin_is_manager (ob_origin base) then
        match usable_generic_arg (ob_args base) with
        | Some a => Some a
        | None => infer_model rest
        end
      else infer_model rest
  end.

(** The check of the explicit declaration, lines 64-68. *)
Definition declared_model_ok (cd : ClassDef) : bool :=
  match cd_model cd with
  | Some model => py_truthy model && py_is_type model && py_is_base_subclass model
  | None => false
  end.

(** *** The [super().__init_subclass__( **kwargs)] of line 62

    The class after [ModelManager] in the method resolution order of a
    manager is [Generic], so the call runs [Generic.__init_subclass__]
    of the typing library, which first hands the keywords on, to
    [object.__init_subclass__] when the other bases of the class have no
    hook of their own. *)

(** [object.__init_subclass__]: it takes no keyword. *)
Definition object_init_subclass (kwargs : list string) : PyResult unit :=
  match kwargs with
  | [] => Returned tt
  | _ :: _ => Raised (MkExn TypeError "__init_subclass__() takes no keyword arguments")
  end.

(** The type variables that the typing library collects from one generic
    argument and from one entry of [__orig_bases__]: a class has none, a
    type variable is one, anything else has its [__parameters__]. *)
Definition py_parameters (o : PyObj) : list string :=
  match o with
  | PyTypeVar name => [name]
  | PyAlias _ params => params
  | PyEntity _ | PyClass _ | PyNone | PyOther _ => []
  end.

Definition base_parameters (b : OrigBase) : list string :=
  match ob_origin b with
  | OriginNone | PlainGeneric => []
  | OriginGeneric | OriginModelManager | OriginManagerSubclass _ | OriginOtherClass _ =>
      flat_map py_parameters (ob_args b)
  end.

(** [_collect_parameters(cls.__orig_bases__)]; the library drops the
    repetitions, which changes no membership. *)
Definition collect_parameters (bases : list OrigBase) : list string :=
  flat_map base_parameters bases.

(** [Generic in cls.__orig_bases__] *)
Definition is_plain_generic (b : OrigBase) : bool :=
  match ob_origin b with
  | PlainGeneric => true
  | _ => false
  end.

(** [isinstance(base, _GenericAlias) and base.__origin__ is Generic] *)
Definition is_generic_alias (b : OrigBase) : bool :=
  match ob_origin b with
  | OriginGeneric => true
  | _ => false
  end.

(** The loop that looks for [Generic[T1, ..., Tn]] among the bases and
    refuses a second one. *)
Fixpoint find_gvars (bases : list OrigBase) (gvars : option (list string))
  : PyResult (option (list string)) :=
  match bases with
  | [] => Returned gvars
  | base :: rest =>
      if is_generic_alias base then
        match gvars with
        | Some _ => Raised (MkExn TypeError "Cannot inherit from Generic[...] multiple types.")
        | None => find_gvars rest (Some (base_parameters base))
        end
      else find_gvars rest gvars
  end.

(** [Generic.__init_subclass__].  A manager class is no typed dictionary,
    so the test on the metaclass is left out. *)
Definition generic_init_subclass (cd : ClassDef) : PyResult unit :=
  match object_init_subclass (cd_kwargs cd) with
  | Raised e => Raised e
  | Returned _ =>
      let error :=
        if cd_own_orig_bases cd then existsb is_plain_generic (cd_orig_bases cd)
        else cd_plain_generic cd && negb (String.eqb (cd_name cd) "Protocol") in
      if error then Raised (MkExn TypeError "Cannot inherit from plain Generic")
      else if cd_own_orig_bases cd then
        let tvars := collect_parameters (cd_orig_bases cd) in
        match find_gvars (cd_orig_bases cd) None with
        | Raised e => Raised e
        | Returned None => Returned tt
        | Returned (Some gvars) =>
            if forallb (fun t => bool_decide (t ∈ gvars)) tvars then Returned tt
            else Raised (MkExn TypeError "Some type variables are not listed in Generic[...]")
        end
      else Returned tt
  end.

(** [ModelManager.__init_subclass__].  The result is the value of the
    class's [model] attribute once the hook has run ([None] when there
    is none). *)
Definition init_subclass (cd : ClassDef) : PyResult (option PyObj) :=
  match generic_init_subclass cd with
  | Raised e => Raised e
  | Returned _ =>
      if declared_model_ok cd then Returned (cd_model cd)
      else
        match infer_model (cd_orig_bases cd) with
        | Some a => Returned (Some a)
        | None => Returned (cd_model cd)
        end
  end.

(** ** The unit of work *)

(** In-memory instances are Python objects: they are referred to by
    identity and mutated in place. *)
Abbreviation ObjId := nat.

(** A record instance: its class and its attribute dictionary. *)
Record Obj : Type := MkObj { obj_model : Model; obj_attrs : Kwargs }.

(** A row of the store, paired with the in-memory instance that stands for
    it in this unit of work (the identity map). *)
Record Row : Type := MkRow { row_obj : ObjId; row_model : Model; row_cols : Kwargs }.

#[global] Instance Obj_eq_dec : EqDecision Obj.
Proof. solve_decision. Defined.

#[global] Instance Row_eq_dec : EqDecision Row.
Proof. solve_decision. Defined.

(** Modelled from the spec: SQLAlchemy's [AsyncSession] is an external
    collaborator and is not part of the sources.  The spec's unit of work
    "owns a set of tracked record instances; changes become durable only
    when explicitly committed, and are visible to reads issued through the
    same unit of work before commit (flush-then-read semantics)", and
    autoflush is the "automatic propagation of pending in-memory changes
    to the store immediately before a query executes".

    - [sess_heap]: the instances in memory, indexed by identity;
    - [sess_new]: instances added to the unit of work and not yet flushed;
    - [sess_rows]: the rows the open transaction sees, in insertion order;
    - [sess_durable]: the rows as of the last commit;
    - [sess_autoflush]: the [session.autoflush] flag;
    - [sess_next_pk]: the next value of the store's primary-key sequence;
    - [sess_lookup_fault]: the failure, if any, with which the store
      answers a query (a statement that cannot be bound, a lost
      connection, ...).

    The store accepts what is flushed and committed: constraints are
    not modelled, and the entity constructor takes the field values it is
    given. *)
Record Session : Type := MkSession {
  sess_heap : list Obj;
  sess_new : list ObjId;
  sess_rows : list Row;
  sess_durable : list Row;
  sess_autoflush : bool;
  sess_next_pk : Z;
  sess_lookup_fault : option Exn
}.

Definition set_autoflush (b : bool) (s : Session) : Session :=
  MkSession (sess_heap s) (sess_new s) (sess_rows s) (sess_durable s)
            b (sess_next_pk s) (sess_lookup_fault s).

Definition set_heap (h : list Obj) (s : Session) : Session :=
  MkSession h (sess_new s) (sess_rows s) (sess_durable s)
            (sess_autoflush s) (sess_next_pk s) (sess_lookup_fault s).

(** ** Code that runs against a session: state and exceptions *)

(** A call either returns a value or raises; either way it leaves a
    session behind. *)
Inductive Outcome (A : Type) : Type :=
  | Ok (a : A) (s : Session)
  | Raise (e : Exn) (s : Session).
Arguments Ok {A} a s.
Arguments Raise {A} e s.

Definition M (A : Type) : Type := Session -> Outcome A.

Definition ret {A} (a : A) : M A := fun s => Ok a s.

Definition raise {A} (e : Exn) : M A := fun s => Raise e s.

Definition bind {A B} (c : M A) (k : A -> M B) : M B :=
  fun s =>
    match c s with
    | Ok a s' => k a s'
    | Raise e s' => Raise e s'
    end.

(** [try: c except ...: handler], the handler deciding by itself which
    exceptions it lets through. *)
Definition try_except {A} (c : M A) (handler : Exn -> M A) : M A :=
  fun s =>
    match c s with
    | Ok a s' => Ok a s'
    | Raise e s' => handler e s'
    end.

Declare Scope manager_scope.
Delimit Scope manager_scope with manager.
Notation "x <~ c1 ;; c2" := (bind c1 (fun x => c2))
  (at level 100, c1 at next level, right associativity) : manager_scope.
Notation "c1 ;;; c2" := (bind c1 (fun _ => c2))
  (at level 100, right associativity) : manager_scope.
Local Open Scope manager_scope.

(** The session an outcome leaves behind. *)
Definition final_session {A} (o : Outcome A) : Session :=
  match o with
  | Ok _ s => s
  | Raise _ s => s
  end.

(** ** Session primitives *)

(** The value of a column, [NULL] when the attribute was never set. *)
Definition col (cols : Kwargs) (k : string) : Value :=
  default VNone (cols !! k).

(** [filter_by] with keyword arguments [kw], on one row: every named column equals the
    given value. *)
Definition cols_match (kw cols : Kwargs) : bool :=
  bool_decide (map_Forall (fun k v => col cols k = v) kw).

(** [select(model).filter_by] with keyword arguments [kw], executed: the rows of [model]
    that satisfy the filter, as the instances that stand for them. *)
Definition row_matches (m : Model) (kw : Kwargs) (r : Row) : bool :=
  bool_decide (row_model r = m) && cols_match kw (row_cols r).

Definition matching_rows (m : Model) (kw : Kwargs) (rows : list Row) : list Row :=
  List.filter (row_matches m kw) rows.

(** Flushing an instance that already has a row writes its current
    attributes to that row. *)
Definition flush_row (heap : list Obj) (r : Row) : Row :=
  match heap !! row_obj r with
  | Some o => MkRow (row_obj r) (row_model r) (obj_attrs o)
  | None => r
  end.

(** Flushing a pending instance inserts its row; a primary key that was
    not supplied is drawn from the store's sequence and written back to
    the instance. *)
Definition flush_new (s : Session) (i : ObjId) : Session :=
  match sess_heap s !! i with
  | None => s
  | Some o =>
      let pk := model_pk (obj_model o) in
      match obj_attrs o !! pk with
      | Some _ =>
          MkSession (sess_heap s) (sess_new s)
                    (sess_rows s ++ [MkRow i (obj_model o) (obj_attrs o)])
                    (sess_durable s) (sess_autoflush s) (sess_next_pk s)
                    (sess_lookup_fault s)
      | None =>
          let attrs := <[pk := VInt (sess_next_pk s)]> (obj_attrs o) in
          MkSession (<[i := MkObj (obj_model o) attrs]> (sess_heap s)) (sess_new s)
                    (sess_rows s ++ [MkRow i (obj_model o) attrs])
                    (sess_durable s) (sess_autoflush s) (sess_next_pk s + 1)
                    (sess_lookup_fault s)
      end
  end.

(** The first half of a flush: the rows of modified instances are
    rewritten, and the pending list is taken over for insertion. *)
Definition flush_dirty (s : Session) : Session :=
  MkSession (sess_heap s) [] (List.map (flush_row (sess_heap s)) (sess_rows s))
            (sess_durable s) (sess_autoflush s) (sess_next_pk s)
            (sess_lookup_fault s).

(** [session.flush()]: pending changes reach the store. *)
Definition flush (s : Session) : Session :=
  fold_left flush_new (sess_new s) (flush_dirty s).

Definition autoflush_now (s : Session) : Session :=
  if sess_autoflush s then flush s else s.

(** [session.add(instance)]: an instance that is already pending or
    already has a row stays as it is. *)
Definition tracked (s : Session) (i : ObjId) : bool :=
  bool_decide (i ∈ sess_new s) || bool_decide (i ∈ List.map row_obj (sess_rows s)).

Definition add_state (i : ObjId) (s : Session) : Session :=
  if tracked s i then s
  else MkSession (sess_heap s) (sess_new s ++ [i]) (sess_rows s)
                 (sess_durable s) (sess_autoflush s) (sess_next_pk s)
                 (sess_lookup_fault s).

Definition session_add (i : ObjId) : M unit :=
  fun s => Ok tt (add_state i s).

(** [session.commit()]: flush, then make the transaction's rows durable. *)
Definition commit_state (s : Session) : Session :=
  let s' := flush s in
  MkSession (sess_heap s') (sess_new s') (sess_rows s') (sess_rows s')
            (sess_autoflush s') (sess_next_pk s') (sess_lookup_fault s').

Definition session_commit : M unit :=
  fun s => Ok tt (commit_state s).

(** An unexecuted [SELECT] over one entity type with the conjunction of
    equalities that [filter_by] has collected. *)
Record Select : Type := MkSelect { sel_model : Model; sel_where : Kwargs }.

(** [Select.filter_by] with keyword arguments [kw]. *)
Definition select_filter_by (stmt : Select) (kw : Kwargs) : Select :=
  MkSelect (sel_model stmt) (kw ∪ sel_where stmt).

(** [session.execute(stmt)] followed by [.scalars()]: autoflush first,
    then the query. *)
Definition session_execute (stmt : Select) : M (list ObjId) :=
  fun s =>
    let s' := autoflush_now s in
    match sess_lookup_fault s' with
    | Some e => Raise e s'
    | None =>
        Ok (List.map row_obj
              (matching_rows (sel_model stmt) (sel_where stmt) (sess_rows s'))) s'
    end.

(** [ScalarResult.one_or_none()] *)
Definition one_or_none (rows : list ObjId) : M (option ObjId) :=
  match rows with
  | [] => ret None
  | [i] => ret (Some i)
  | _ :: _ :: _ =>
      raise (MkExn MultipleResultsFound
               "Multiple rows were found when one or none was required")
  end.

(** [session.get(m, id)]: an instance already in the identity map is
    returned as it is; otherwise the store is queried. *)
Definition find_pk (m : Model) (id : Value) (rows : list Row) : option ObjId :=
  row_obj <$> List.find (fun r => bool_decide (row_model r = m)
                                  && bool_decide (row_cols r !! model_pk m = Some id)) rows.

Definition session_get (m : Model) (id : Value) : M (option ObjId) :=
  fun s =>
    match find_pk m id (sess_rows s) with
    | Some i => Ok (Some i) s
    | None =>
        let s' := autoflush_now s in
        match sess_lookup_fault s' with
        | Some e => Raise e s'
        | None => Ok (find_pk m id (sess_rows s')) s'
        end
    end.

(** ** The manager *)

(** A manager class after its class statement has run: [mgr_model] is
    its [model] attribute, [None] when the class has none. *)
Record Manager : Type := MkManager { mgr_name : string; mgr_model : option Model }.


(** Reading [self.model]: only annotated on [ModelManager], so a class
    that never got the attribute raises [AttributeError]. *)
Definition self_model (mgr : Manager) : M Model :=
  match mgr_model mgr with
  | Some m => ret m
  | None => raise (MkExn AttributeError "object has no attribute 'model'")
  end.

(** [self.model(...)] with keyword arguments [kw]: a fresh instance whose
    attributes are the given field values. *)
Definition new_instance (m : Model) (kw : Kwargs) : M ObjId :=
  fun s => Ok (List.length (sess_heap s)) (set_heap (sess_heap s ++ [MkObj m kw]) s).

(** [setattr(instance, key, value)] *)
Definition setattr_state (i : ObjId) (k : string) (v : Value) (s : Session) : Session :=
  match sess_heap s !! i with
  | Some o => set_heap (<[i := MkObj (obj_model o) (<[k := v]> (obj_attrs o))]> (sess_heap s)) s
  | None => s
  end.

(** [for key, value in kw.items(): setattr(instance, key, value)] *)
Definition setattrs (i : ObjId) (kw : Kwargs) : M unit :=
  fun s => Ok tt (map_fold (setattr_state i) s kw).

(** [ModelManager.select] *)
Definition select (mgr : Manager) : M Select :=
  m <~ self_model mgr ;;
  ret (MkSelect m ∅).

(** [ModelManager.filter_by] *)
Definition filter_by (mgr : Manager) (kw : Kwargs) : M Select :=
  stmt <~ select mgr ;;
  ret (select_filter_by stmt kw).

(** [ModelManager.save] *)
Definition save (i : ObjId) (commit : bool) : M ObjId :=
  session_add i ;;;
  (if commit then session_commit else ret tt) ;;;
  ret i.

(** [ModelManager.commit] *)
Definition commit : M unit := session_commit.

(** [ModelManager.create] *)
Definition create (mgr : Manager) (commit : bool) (kw : Kwargs) : M ObjId :=
  m <~ self_model mgr ;;
  instance <~ new_instance m kw ;;
  save instance commit ;;;
  ret instance.

(** [ModelManager.get] *)
Definition get (mgr : Manager) (id : Value) : M (option ObjId) :=
  m <~ self_model mgr ;;
  session_get m id.

(** [ModelManager.get_by] *)
Definition get_by (mgr : Manager) (kw : Kwargs) : M (option ObjId) :=
  stmt0 <~ select mgr ;;
  let stmt := select_filter_by stmt0 kw in
  result <~ session_execute stmt ;;
  one_or_none result.

(** [ModelManager.no_autoflush], used as [async with self.no_autoflush():
    body]: the flag is saved and cleared, the body runs, and the [finally]
    clause puts the saved flag back whether the body returned or raised. *)
Definition no_autoflush {A} (body : M A) : M A :=
  fun s =>
    let autoflush := sess_autoflush s in
    match body (set_autoflush false s) with
    | Ok a s' => Ok a (set_autoflush autoflush s')
    | Raise e s' => Raise e (set_autoflush autoflush s')
    end.

(** [ModelManager._maybe_get_by]: the [except] clause catches statement
    errors only, re-raises those without the marker, and otherwise falls
    through to [return None]. *)
Definition _maybe_get_by (mgr : Manager) (kw : Kwargs) : M (option ObjId) :=
  no_autoflush
    (try_except (get_by mgr kw)
       (fun e =>
          if is_statement_error e then
            if negb (str_contains unset_column_marker (exn_str e)) then raise e
            else ret None
          else raise e)).

(** The call [self.create(..., commit=commit)] with [defaults] and [kw]
    both unpacked into keywords.  A keyword given twice, by the two
    dictionaries or by one of them and by [commit=commit], is a
    [TypeError] of the call itself. *)
Definition keyword_twice (defaults kw : Kwargs) : bool :=
  negb (bool_decide (dom defaults ∩ dom kw = (∅ : gset string)))
  || bool_decide (is_Some (defaults !! "commit"))
  || bool_decide (is_Some (kw !! "commit")).

(** The keyword [self] meets the first parameter of [create], which the
    bound method has filled: a [TypeError] as well. *)
Definition keyword_self (defaults kw : Kwargs) : bool :=
  bool_decide (is_Some (defaults !! "self"))
  || bool_decide (is_Some (kw !! "self")).

(** The keywords with which the call raises before [create] runs. *)
Definition keyword_clash (defaults kw : Kwargs) : bool :=
  keyword_twice defaults kw || keyword_self defaults kw.

Definition create_unpacked (mgr : Manager) (defaults kw : Kwargs) (commit : bool)
  : M ObjId :=
  if keyword_twice defaults kw then
    raise (MkExn TypeError "got multiple values for keyword argument")
  else if keyword_self defaults kw then
    raise (MkExn TypeError "got multiple values for argument 'self'")
  else create mgr commit (defaults ∪ kw).

(** [ModelManager.get_or_create].  [not instance] holds for [None] only:
    neither [Base] nor the models define [__bool__] or [__len__]. *)
Definition get_or_create (mgr : Manager) (defaults : option Kwargs) (commit : bool)
    (kw : Kwargs) : M (ObjId * bool) :=
  instance <~ _maybe_get_by mgr kw ;;
  match instance with
  | None =>
      let defaults := default ∅ defaults in
      created <~ create_unpacked mgr defaults kw commit ;;
      ret (created, true)
  | Some i => ret (i, false)
  end.

(** [ModelManager.update] *)
Definition update (i : ObjId) (commit : bool) (kw : Kwargs) : M ObjId :=
  setattrs i kw ;;;
  save i commit ;;;
  ret i.

(** [ModelManager.update_or_create] *)
Definition update_or_create (mgr : Manager) (defaults : option Kwargs) (commit : bool)
    (kw : Kwargs) : M (ObjId * bool) :=
  let defaults := default ∅ defaults in
  instance <~ _maybe_get_by mgr kw ;;
  match instance with
  | None =>
      created <~ create_unpacked mgr defaults kw commit ;;
      ret (created, true)
  | Some i =>
      setattrs i defaults ;;;
      ret (i, false)
  end.

(** Reading [instance.key]. *)
Definition getattr (s : Session) (i : ObjId) (k : string) : option Value :=
  o ← sess_heap s !! i; obj_attrs o !! k.

(** ** More of the manager *)

(** [session.add_all(instances)]: each instance is added in turn. *)
Definition session_add_all (instances : list ObjId) : M unit :=
  fun s => Ok tt (fold_left (fun t i => add_state i t) instances s).

(** [ModelManager.save_all] *)
Definition save_all (instances : list ObjId) (commit : bool) : M (list ObjId) :=
  session_add_all instances ;;;
  (if commit then session_commit else ret tt) ;;;
  ret instances.

(** [ModelManager.all]: the unfiltered select, executed. *)
Definition all (mgr : Manager) : M (list ObjId) :=
  stmt <~ select mgr ;;
  result <~ session_execute stmt ;;
  ret result.

(** ** Vocabulary of the properties *)

(** What the hook gives when its own lines, after the [super()] call,
    leave [r] as the [model] attribute: the exception of the call when
    it raised, [r] otherwise. *)
Definition after_super (cd : ClassDef) (r : option PyObj) : PyResult (option PyObj) :=
  match generic_init_subclass cd with
  | Raised e => Raised e
  | Returned _ => Returned r
  end.



(** Two sessions that differ at most in their autoflush flag. *)
Definition same_but_autoflush (s1 s2 : Session) : Prop :=
  sess_heap s1 = sess_heap s2
  /\ sess_new s1 = sess_new s2
  /\ sess_rows s1 = sess_rows s2
  /\ sess_durable s1 = sess_durable s2
  /\ sess_next_pk s1 = sess_next_pk s2
  /\ sess_lookup_fault s1 = sess_lookup_fault s2.

(** Whether a call returned, and what, or which exception it raised. *)
Definition outcome_result {A} (o : Outcome A) : PyResult A :=
  match o with
  | Ok a _ => Returned a
  | Raise e _ => Raised e
  end.

(** The rows a query issued now observes: those of the open transaction
    once autoflush, if it is on, has run. *)
Definition visible_rows (s : Session) : list Row := sess_rows (autoflush_now s).

(** The exceptions that [_maybe_get_by] swallows. *)
Definition swallowed (e : Exn) : bool :=
  is_statement_error e && str_contains unset_column_marker (exn_str e).

(** Every pending instance and every instance behind a row is an object
    of the heap. *)
Definition session_wf (s : Session) : Prop :=
  Forall (fun j => (j < List.length (sess_heap s))%nat) (sess_new s)
  /\ Forall (fun r => (row_obj r < List.length (sess_heap s))%nat) (sess_rows s).

(** What a row holds once its instance is flushed. *)
Definition stored_attrs (m : Model) (kw : Kwargs) (next : Z) : Kwargs :=
  match kw !! model_pk m with
  | Some _ => kw
  | None => <[model_pk m := VInt next]> kw
  end.

(** The primary key stored in a row. *)
Definition pk_of (r : Row) : option Value :=
  row_cols r !! model_pk (row_model r).

(** The store's primary-key constraint: no two rows of one entity type
    with the same key. *)
Definition primary_keys_unique (s : Session) : Prop :=
  NoDup (List.map (fun r => (row_model r, pk_of r)) (sess_rows s)).

#[global] Instance primary_keys_unique_dec s : Decision (primary_keys_unique s).
Proof. unfold primary_keys_unique. apply _. Defined.

(** ** Concrete data for running the model *)

Definition User : Model := MkModel "User" "id".
Definition AccessToken : Model := MkModel "AccessToken" "token".

Definition UserModelManager : Manager := MkManager "UserModelManager" (Some User).

(** A fresh session as [async_session_factory] builds it: nothing
    tracked, nothing stored, autoflush off. *)
Definition empty_session : Session := MkSession [] [] [] [] false 1 None.

Definition email_b : Kwargs := {[ "email" := VStr "b@x.com" ]}.
Definition name_B : Kwargs := {[ "name" := VStr "B" ]}.

Definition token_t : Kwargs := {[ "token" := VStr "t" ]}.

Definition AccessTokenManager : Manager := MkManager "AccessTokenManager" (Some AccessToken).

(** [class UserModelManager(ModelManager[User]): model = User] *)
Definition UserModelManager_def : ClassDef :=
  MkClassDef "UserModelManager" (Some (PyEntity User))
             [MkOrigBase OriginModelManager [PyEntity User]] true false [].


(** [class Bad(ModelManager[ModelT], Generic[T]): pass], which the
    typing library refuses: [ModelT] is not listed in [Generic[T]]. *)
Definition Bad_def : ClassDef :=
  MkClassDef "Bad" None
             [MkOrigBase OriginModelManager [PyTypeVar "ModelT"];
              MkOrigBase OriginGeneric [PyTypeVar "T"]] true true [].


(** The statement error that the store raises for a filter on a column
    of an instance that has not been flushed yet. *)
Definition unset_column_error : Exn :=
  MkExn StatementError
    "(sqlalchemy.exc.InvalidRequestError) Can't resolve value for column user.id on object; no value has been set for this column".

Definition connection_lost : Exn :=
  MkExn OperationalError "server closed the connection unexpectedly".

Definition with_fault (e : Exn) (s : Session) : Session :=
  MkSession (sess_heap s) (sess_new s) (sess_rows s) (sess_durable s)
            (sess_autoflush s) (sess_next_pk s) (Some e).

Definition name_C : Kwargs := {[ "name" := VStr "C" ]}.

(** The session after [create(name="B", email="b@x.com", commit=True)]
    on a fresh session. *)
Definition session_b : Session :=
  final_session (create UserModelManager true (name_B ∪ email_b) empty_session).

(** The same session after a second [create] with the same email
    address, committed as well: two rows answer a query by that address. *)
Definition session_b_twice : Session :=
  final_session (create UserModelManager true (name_C ∪ email_b) session_b).

(** * Table names ([app/db/models/base.py]) *)

(** The character classes of the two regular expressions: [[A-Z]],
    [[a-z]] and [[0-9]] are the ASCII ranges.  A byte of a character
    outside ASCII is in none of them. *)
Definition is_upper (c : ascii) : bool :=
  let n := N_of_ascii c in (65 <=? n)%N && (n <=? 90)%N.

Definition is_lower (c : ascii) : bool :=
  let n := N_of_ascii c in (97 <=? n)%N && (n <=? 122)%N.

Definition is_digit (c : ascii) : bool :=
  let n := N_of_ascii c in (48 <=? n)%N && (n <=? 57)%N.

(** [str.lower()] on a name made of ASCII characters: the capitals go to
    their small letters.  A byte of a character outside ASCII is left as
    it is, so for a name with a capital outside ASCII, which Python
    lowers as well, the string below is not that of [str.lower()]. *)
Definition lower_char (c : ascii) : ascii :=
  if is_upper c then ascii_of_N (N_of_ascii c + 32) else c.

Fixpoint str_lower (s : string) : string :=
  match s with
  | EmptyString => EmptyString
  | String c rest => String (lower_char c) (str_lower rest)
  end.

(** [re.sub(r"([a-z0-9])([A-Z])", r"\1_\2", s)]: scanning from the left,
    a small letter or digit followed by a capital gets an underscore in
    between, and the scan goes on after the capital. *)
Fixpoint sub_camel (s : string) : string :=
  match s with
  | EmptyString => EmptyString
  | String c1 tl =>
      match tl with
      | EmptyString => s
      | String c2 rest =>
          if (is_lower c1 || is_digit c1) && is_upper c2
          then String c1 (String "_"%char (String c2 (sub_camel rest)))
          else String c1 (sub_camel tl)
      end
  end.

(** [re.sub(r"([A-Z])([A-Z][a-z])", r"\1_\2", s)]: a capital followed by
    a capital and a small letter gets an underscore after the first
    capital, and the scan goes on after the small letter. *)
Fixpoint sub_acronym (s : string) : string :=
  match s with
  | EmptyString => EmptyString
  | String c1 tl =>
      match tl with
      | String c2 (String c3 rest) =>
          if is_upper c1 && is_upper c2 && is_lower c3
          then String c1 (String "_"%char (String c2 (String c3 (sub_acronym rest))))
          else String c1 (sub_acronym tl)
      | _ => s
      end
  end.

(** [Base.__tablename__]: the class name in snake case. *)
Definition tablename (class_name : string) : string :=
  str_lower (sub_acronym (sub_camel class_name)).

(** Whether a string has a capital, and a string without its
    underscores. *)
Fixpoint has_upper (s : string) : bool :=
  match s with
  | EmptyString => false
  | String c rest => is_upper c || has_upper rest
  end.

Fixpoint erase_underscores (s : string) : string :=
  match s with
  | EmptyString => EmptyString
  | String c rest =>
      if Ascii.eqb c "_"%char then erase_underscores rest
      else String c (erase_underscores rest)
  end.

(** The names made of ASCII characters only: those on which [str_lower]
    is [str.lower()]. *)
Fixpoint is_ascii (s : string) : bool :=
  match s with
  | EmptyString => true
  | String c rest => (N_of_ascii c <? 128)%N && is_ascii rest
  end.

(** * The [require_user] decorator ([app/auth/require_user.py]) *)

(** What a parameter is annotated with: [models.User], something else,
    or nothing. *)
Inductive Annotation : Type :=
  | AnnUser
  | AnnOther (name : string)
  | AnnEmpty.

#[global] Instance Annotation_eq_dec : EqDecision Annotation.
Proof. solve_decision. Defined.

Inductive ParamKind : Type :=
  | PositionalOnly
  | PositionalOrKeyword
  | VarPositional
  | KeywordOnly
  | VarKeyword.

#[global] Instance ParamKind_eq_dec : EqDecision ParamKind.
Proof. solve_decision. Defined.

(** The dependency that [fastapi_users.current_user] builds. *)
Record CurrentUser : Type := MkCurrentUser {
  cu_active : bool;
  cu_verified : bool;
  cu_superuser : bool
}.

#[global] Instance CurrentUser_eq_dec : EqDecision CurrentUser.
Proof. solve_decision. Defined.

Inductive ParamDefault : Type :=
  | NoDefault
  | DefaultValue (repr : string)
  | Depends (dependency : CurrentUser).

#[global] Instance ParamDefault_eq_dec : EqDecision ParamDefault.
Proof. solve_decision. Defined.

(** An [inspect.Parameter]. *)
Record Param : Type := MkParam {
  param_name : string;
  param_kind : ParamKind;
  param_default : ParamDefault;
  param_annotation : Annotation
}.

#[global] Instance Param_eq_dec : EqDecision Param.
Proof. solve_decision. Defined.

(** [Config.AUTH_REQUIRE_USER_VERIFIED] *)
Definition AUTH_REQUIRE_USER_VERIFIED : bool := true.

(** [param.annotation == models.User] *)
Definition annotated_user (p : Param) : bool :=
  bool_decide (param_annotation p = AnnUser).

(** The parameter that carries the dependency, lines 58-63. *)
Definition auth_user_param (is_active is_superuser : bool) : Param :=
  MkParam "__auth_user" KeywordOnly
    (Depends (MkCurrentUser is_active AUTH_REQUIRE_USER_VERIFIED is_superuser))
    AnnUser.

(** The parameters handed to [sig.replace], lines 50-66: those of the
    decorated function that are not annotated with [User], then the
    dependency. *)
Definition new_params (is_active is_superuser : bool) (sig : list Param) : list Param :=
  let params := List.filter (fun p => negb (annotated_user p)) sig in
  params ++ [auth_user_param is_active is_superuser].

(** [sig.replace(parameters=...)] builds a [Signature], which validates
    its parameters in one pass: their kinds must come in the order
    below, a positional parameter without default must not follow one of
    its kind with a default, and no name may come twice.  (The pass is
    that of CPython 3.11; later versions do not reset the flag for the
    defaults when the kind changes, which gives the same verdict on the
    parameters of any function definition.) *)
Definition kind_rank (k : ParamKind) : nat :=
  match k with
  | PositionalOnly => 0
  | PositionalOrKeyword => 1
  | VarPositional => 2
  | KeywordOnly => 3
  | VarKeyword => 4
  end.

Definition positional (k : ParamKind) : bool :=
  match k with
  | PositionalOnly | PositionalOrKeyword => true
  | VarPositional | KeywordOnly | VarKeyword => false
  end.

Definition value_error (msg : string) : Exn := MkExn (OtherException "ValueError") msg.

(** The variables of the pass: [top_kind], [kind_defaults] and the names
    seen. *)
Record SigState : Type := MkSigState {
  st_top_kind : ParamKind;
  st_kind_defaults : bool;
  st_names : list string
}.

Definition validate_step (st : SigState) (p : Param) : PyResult SigState :=
  let kind := param_kind p in
  if (kind_rank kind <? kind_rank (st_top_kind st))%nat then
    Raised (value_error "wrong parameter order")
  else
    let kind_defaults :=
      if (kind_rank (st_top_kind st) <? kind_rank kind)%nat then false
      else st_kind_defaults st in
    let no_default := bool_decide (param_default p = NoDefault) in
    if positional kind && no_default && kind_defaults then
      Raised (value_error "non-default argument follows default argument")
    else
      let kind_defaults :=
        if positional kind && negb no_default then true else kind_defaults in
      if bool_decide (param_name p ∈ st_names st) then
        Raised (value_error "duplicate parameter name")
      else Returned (MkSigState kind kind_defaults (param_name p :: st_names st)).

Fixpoint validate_parameters (params : list Param) (st : SigState) : PyResult SigState :=
  match params with
  | [] => Returned st
  | p :: rest =>
      match validate_step st p with
      | Raised e => Raised e
      | Returned st => validate_parameters rest st
      end
  end.

Definition signature_replace (params : list Param) : PyResult (list Param) :=
  match validate_parameters params (MkSigState PositionalOnly false []) with
  | Raised e => Raised e
  | Returned _ => Returned params
  end.

(** The parameters of the signature that the decorator gives the
    wrapper, line 67, or the [ValueError] with which the decoration
    fails. *)
Definition wrapper_parameters (is_active is_superuser : bool) (sig : list Param)
  : PyResult (list Param) :=
  signature_replace (new_params is_active is_superuser sig).

(** The parameters that [inspect] accepts as those of a signature, as
    the parameters of a function definition are. *)
Definition valid_signature (sig : list Param) : bool :=
  match signature_replace sig with
  | Returned _ => true
  | Raised _ => false
  end.

(** A parameter after which the keyword-only [__auth_user] cannot come:
    a [**kwargs], or a parameter of that name. *)
Definition blocks_auth_user (p : Param) : bool :=
  bool_decide (param_kind p = VarKeyword) || String.eqb (param_name p) "__auth_user".

Section Wrapper.

(** Python values, with [None] among them. *)
Variable V : Type.
Variable py_none : V.

(** The keyword arguments that the wrapper passes on, lines 36-44: the
    injected dependency is taken out, and the first parameter annotated
    with [User] gets it. *)
Definition wrapper_kwargs (sig : list Param) (kwargs : gmap string V) : gmap string V :=
  let user_obj := default py_none (kwargs !! "__auth_user") in
  let kwargs := delete "__auth_user" kwargs in
  match List.find annotated_user sig with
  | Some param => <[param_name param := user_obj]> kwargs
  | None => kwargs
  end.

(** The wrapper, called: the decorated function gets the positional
    arguments as they are and the keyword arguments above. *)
Definition wrapper {A R : Type} (sig : list Param) (func_inner : A -> gmap string V -> R)
    (args : A) (kwargs : gmap string V) : R :=
  func_inner args (wrapper_kwargs sig kwargs).

End Wrapper.

(** [def api_protected(user: User)] of [app/views] and a function with
    two [User] parameters. *)
Definition api_protected_sig : list Param :=
  [MkParam "user" PositionalOrKeyword NoDefault AnnUser].


(** [def search(user: User, q: str, page: int = 1, *, owner: User = None)]
    and [def audit(user: User, **extra)]. *)
Definition search_sig : list Param :=
  [MkParam "user" PositionalOrKeyword NoDefault AnnUser;
   MkParam "q" PositionalOrKeyword NoDefault (AnnOther "str");
   MkParam "page" PositionalOrKeyword (DefaultValue "1") (AnnOther "int");
   MkParam "owner" KeywordOnly (DefaultValue "None") AnnUser].

Definition audit_sig : list Param :=
  [MkParam "user" PositionalOrKeyword NoDefault AnnUser;
   MkParam "extra" VarKeyword NoDefault AnnEmpty].

(** * The admin authentication backend ([app/admin/auth.py]) *)

(** The flags of a user that the backend reads. *)
Record AdminUser : Type := MkAdminUser {
  au_email : string;
  au_active : bool;
  au_superuser : bool;
  au_verified : bool
}.

#[global] Instance AdminUser_eq_dec : EqDecision AdminUser.
Proof. solve_decision. Defined.

(** What the backend asks of the user manager and the token strategy. *)
Inductive StoreEvent : Type :=
  | EvCheckCredentials (username : string)
  | EvWriteToken (user : AdminUser)
  | EvValidateToken (token : string)
  | EvDestroyToken (token : option string) (user : option AdminUser).

Inductive AdminExn : Type :=
  | HTTPException (status_code : nat) (detail : string)
  | KeyError (key : string).

Inductive AdminResult (A : Type) : Type :=
  | AdminOk (a : A)
  | AdminRaise (e : AdminExn).
Arguments AdminOk {A} a.
Arguments AdminRaise {A} e.

(** The request's session dictionary and the trace of store accesses. *)
Record AdminState : Type := MkAdminState {
  req_session : gmap string string;
  store_log : list StoreEvent
}.

Definition log_event (ev : StoreEvent) (st : AdminState) : AdminState :=
  MkAdminState (req_session st) (store_log st ++ [ev]).

(** [bool(token)] for a token that is a string or [None]. *)
Definition token_truthy (token : option string) : bool :=
  match token with
  | Some t => negb (bool_decide (t = ""))
  | None => false
  end.

Section AdminAuth.

(** The collaborators: [user_manager.authenticate] on a user name and a
    password, [db_strategy.write_token], and the authenticator's
    [_authenticate] on a token with [active], [verified] and [superuser]
    required, which returns a user and a token or raises. *)
Variable check_credentials : string -> string -> option AdminUser.
Variable write_token : AdminUser -> string.
Variable validate_token : string -> AdminResult (option AdminUser * option string).

(** [AdminAuth.login] on the submitted form. *)
Definition login (form : gmap string string) (st : AdminState)
  : AdminResult bool * AdminState :=
  match form !! "username" with
  | None => (AdminRaise (KeyError "username"), st)
  | Some username =>
      match form !! "password" with
      | None => (AdminRaise (KeyError "password"), st)
      | Some password =>
          let st := log_event (EvCheckCredentials username) st in
          match check_credentials username password with
          | None => (AdminOk false, st)
          | Some user =>
              if negb (forallb id [au_active user; au_superuser user]) then
                (AdminRaise (HTTPException 403 "forbidden"), st)
              else if AUTH_REQUIRE_USER_VERIFIED && negb (au_verified user) then
                (AdminRaise (HTTPException 400 "LOGIN_USER_NOT_VERIFIED"), st)
              else
                let token := write_token user in
                let st := log_event (EvWriteToken user) st in
                (AdminOk true,
                 MkAdminState (<["token" := token]> (req_session st)) (store_log st))
          end
      end
  end.

(** [AdminAuth._authenticate_request] *)
Definition _authenticate_request (logout : bool) (st : AdminState)
  : AdminResult (option AdminUser * option string) * AdminState :=
  let token := req_session st !! "token" in
  if negb (token_truthy token) then (AdminOk (None, None), st)
  else
    match token with
    | None => (AdminOk (None, None), st)
    | Some token =>
        let st := log_event (EvValidateToken token) st in
        match validate_token token with
        | AdminRaise e => (AdminRaise e, st)
        | AdminOk (user, token) =>
            if logout then
              (AdminOk (user, None), log_event (EvDestroyToken token user) st)
            else (AdminOk (user, token), st)
        end
    end.

(** [AdminAuth.authenticate]; a user object is truthy. *)
Definition authenticate (st : AdminState) : AdminResult bool * AdminState :=
  match _authenticate_request false st with
  | (AdminRaise e, st) => (AdminRaise e, st)
  | (AdminOk (user, token), st) =>
      (AdminOk (bool_decide (is_Some user) && token_truthy token), st)
  end.

(** [AdminAuth.logout] *)
Definition logout (st : AdminState) : AdminResult bool * AdminState :=
  match _authenticate_request true st with
  | (AdminRaise e, st) => (AdminRaise e, st)
  | (AdminOk _, st) => (AdminOk true, MkAdminState ∅ (store_log st))
  end.

End AdminAuth.

(** Collaborators for concrete runs: one administrator, one token. *)
Definition demo_admin : AdminUser := MkAdminUser "admin@example.com" true true true.

Definition demo_credentials (username password : string) : option AdminUser :=
  if bool_decide (username = "admin@example.com") && bool_decide (password = "password")
  then Some demo_admin else None.

Definition demo_write_token (user : AdminUser) : string := "admin_token".

Definition demo_validate (token : string)
  : AdminResult (option AdminUser * option string) :=
  if bool_decide (token = "admin_token") then AdminOk (Some demo_admin, Some token)
  else AdminRaise (HTTPException 401 "Unauthorized").

(** * The route listing ([app/cli/main.py]) *)

(** What [get_endpoint_path] reads of an endpoint or of a class:
    [__module__], [__qualname__] and [__name__], each possibly missing. *)
Record Endpoint : Type := MkEndpoint {
  ep_module : option string;
  ep_qualname : option string;
  ep_name : option string
}.

(** [get_endpoint_path] *)
Definition get_endpoint_path (endpoint : Endpoint) : string :=
  let module := default "" (ep_module endpoint) in
  let name := default (default "" (ep_name endpoint)) (ep_qualname endpoint) in
  if bool_decide (module = "") then name
  else String.append module (String.append "." name).

(** The routes that [collect_routes] tells apart, in the order of its
    [isinstance] tests: [APIRoute] (a [Route] itself, so tested first),
    [WebSocketRoute], any other [Route], [Mount], and everything else. *)
Unset Elimination Schemes.
Inductive Route : Type :=
  | APIRoute (methods : gset string) (path : string) (endpoint : Endpoint)
  | WebSocketRoute (path : string) (endpoint : Endpoint)
  | PlainRoute (methods : option (gset string)) (path : string) (endpoint : Endpoint)
  | Mount (path : string) (routes : list Route) (app_class : option Endpoint)
  | OtherRoute.
Set Elimination Schemes.

(** [sorted] on a set of strings. *)
Definition str_le (s t : string) : Prop := String.leb s t = true.

#[global] Instance str_le_dec : RelDecision str_le.
Proof. intros s t. unfold str_le. apply _. Defined.

Definition sorted (strings : gset string) : list string :=
  merge_sort str_le (elements strings).

(** [", ".join(sorted(methods - {"HEAD", "OPTIONS"}))] *)
Definition shown_methods (methods : gset string) : string :=
  String.concat ", " (sorted (methods ∖ {[ "HEAD"; "OPTIONS" ]})).

(** A row of the table: methods, URL, endpoint. *)
Record RouteRow : Type := MkRouteRow {
  row_methods : string;
  row_url : string;
  row_endpoint : string
}.

#[global] Instance RouteRow_eq_dec : EqDecision RouteRow.
Proof. solve_decision. Defined.

(** The rows that one route contributes under a prefix, and
    [collect_routes] itself: the rows of the routes, in order.  A mount
    with routes contributes their rows under the longer prefix; a mount
    without routes contributes one row for its application. *)
Fixpoint collect_route (prefix : string) (route : Route) : list RouteRow :=
  match route with
  | APIRoute methods path endpoint =>
      [MkRouteRow (shown_methods methods) (String.append prefix path)
                  (get_endpoint_path endpoint)]
  | WebSocketRoute path endpoint =>
      [MkRouteRow "WS" (String.append prefix path) (get_endpoint_path endpoint)]
  | PlainRoute methods path endpoint =>
      let methods :=
        match methods with
        | Some ms => if bool_decide (ms = ∅) then "ANY" else shown_methods ms
        | None => "ANY"
        end in
      [MkRouteRow methods (String.append prefix path) (get_endpoint_path endpoint)]
  | Mount path routes app_class =>
      match routes with
      | _ :: _ => flat_map (collect_route (String.append prefix path)) routes
      | [] =>
          match app_class with
          | Some c => [MkRouteRow "MOUNT" (String.append prefix path) (get_endpoint_path c)]
          | None => []
          end
      end
  | OtherRoute => []
  end.

Definition collect_routes (routes : list Route) (prefix : string) : list RouteRow :=
  flat_map (collect_route prefix) routes.

(** A row moved under a prefix. *)
Definition under (prefix : string) (row : RouteRow) : RouteRow :=
  MkRouteRow (row_methods row) (String.append prefix (row_url row)) (row_endpoint row).

Definition demo_endpoint (name : string) : Endpoint :=
  MkEndpoint (Some "app.views") (Some name) (Some name).

Definition demo_routes : list Route :=
  [APIRoute {[ "GET"; "HEAD" ]} "/" (demo_endpoint "index");
   Mount "/api/v1"
     [APIRoute {[ "POST"; "GET"; "OPTIONS" ]} "/users" (demo_endpoint "get_users");
      WebSocketRoute "/ws" (demo_endpoint "socket");
      Mount "/static" [] (Some (MkEndpoint (Some "starlette.staticfiles") (Some "StaticFiles") None))]
     None;
   PlainRoute None "/any" (MkEndpoint None None (Some "handler"))].

(** * Transactional mail ([app/mail.py], [app/auth/user_manager.py]) *)

(** A value of a template context: a string or some other object. *)
Inductive CtxValue : Type :=
  | CtxStr (s : string)
  | CtxObject (name : string).

#[global] Instance CtxValue_eq_dec : EqDecision CtxValue.
Proof. solve_decision. Defined.

(** The [Email] schema.  [em_sender] is the field aliased [from],
    [em_template_body] the one aliased [html]. *)
Record Email : Type := MkEmail {
  em_recipients : list string;
  em_subject : string;
  em_template : string;
  em_template_context : option (gmap string CtxValue);
  em_cc : list string;
  em_bcc : list string;
  em_reply_to : list string;
  em_sender : option string;
  em_template_body : option string
}.

#[global] Instance Email_eq_dec : EqDecision Email.
Proof. solve_decision. Defined.

Definition set_template_body (body : string) (m : Email) : Email :=
  MkEmail (em_recipients m) (em_subject m) (em_template m) (em_template_context m)
          (em_cc m) (em_bcc m) (em_reply_to m) (em_sender m) (Some body).

Definition set_sender (sender : string) (m : Email) : Email :=
  MkEmail (em_recipients m) (em_subject m) (em_template m) (em_template_context m)
          (em_cc m) (em_bcc m) (em_reply_to m) (Some sender) (em_template_body m).

Definition set_template_context (ctx : option (gmap string CtxValue)) (m : Email) : Email :=
  MkEmail (em_recipients m) (em_subject m) (em_template m) ctx
          (em_cc m) (em_bcc m) (em_reply_to m) (em_sender m) (em_template_body m).

(** The dictionary that [Resend.send_message] hands to [resend.Emails.send]. *)
Record ResendPayload : Type := MkResendPayload {
  rp_from : option string;
  rp_to : list string;
  rp_subject : string;
  rp_cc : list string;
  rp_bcc : list string;
  rp_reply_to : list string;
  rp_html : option string
}.

#[global] Instance ResendPayload_eq_dec : EqDecision ResendPayload.
Proof. solve_decision. Defined.

Definition resend_payload (m : Email) : ResendPayload :=
  MkResendPayload (em_sender m) (em_recipients m) (em_subject m) (em_cc m) (em_bcc m)
                  (em_reply_to m) (em_template_body m).

(** The mail senders of the application: the abstract [MailSender],
    whose [send_message] raises [NotImplementedError], and [Resend]. *)
Inductive MailSender : Type :=
  | AbstractSender
  | Resend.

(** Unpacking [None] as keyword arguments, as in [render( ** None)]. *)
Definition unpack_none_error : Exn :=
  MkExn TypeError "argument after ** must be a mapping, not NoneType".

Definition not_implemented_error : Exn :=
  MkExn (OtherException "NotImplementedError") "".

(** A run of [n] slashes. *)
Fixpoint slashes (n : nat) : string :=
  match n with
  | O => EmptyString
  | S n => String "/"%char (slashes n)
  end.

(** [str.rstrip("/")] *)
Fixpoint rstrip_slash (s : string) : string :=
  match s with
  | EmptyString => EmptyString
  | String c rest =>
      match rstrip_slash rest with
      | EmptyString => if Ascii.eqb c "/"%char then EmptyString else String c EmptyString
      | r => String c r
      end
  end.

Fixpoint last_char (s : string) : option ascii :=
  match s with
  | EmptyString => None
  | String c EmptyString => Some c
  | String _ rest => last_char rest
  end.

Definition BASE_URL : string := "http://localhost:8000".

(** [Config.MAIL_CONFIG] leaves [MAIL_SENDER] unset. *)
Definition MAIL_CONFIG_SENDER : option MailSender := None.

Definition item_assignment_error : Exn :=
  MkExn TypeError "'NoneType' object does not support item assignment".

Module Mail.
Section Env.

(** The collaborators: the template engine ([get_template], then
    [render] with the context as keywords), the [From] header that
    FastMail computes, its preparation of a message for SMTP, the SMTP
    delivery of a batch, and [resend.Emails.send].  [None] stands for a
    call that returns. *)
Variable Prepared : Type.
Variable get_template : string -> option Exn.
Variable render : string -> gmap string CtxValue -> PyResult string.
Variable fastmail_sender : Email -> string.
Variable prepare_message : Email -> PyResult Prepared.
Variable smtp_send : list Prepared -> option Exn.
Variable resend_send : ResendPayload -> option Exn.

(** A call to a delivery service. *)
Inductive Delivery : Type :=
  | ViaResend (payload : ResendPayload)
  | ViaSmtp (batch : list Prepared).

(** What a call leaves: the exception if it raised, the messages as
    they are now (they are mutated in place), and the trace of calls to
    the delivery services. *)
Record MailOutcome : Type := MkMailOutcome {
  mo_raised : option Exn;
  mo_messages : list Email;
  mo_log : list Delivery
}.

(** One round of the first loop of [send_messages], lines 130-131. *)
Definition render_message (m : Email) : PyResult Email :=
  match get_template (em_template m) with
  | Some e => Raised e
  | None =>
      match em_template_context m with
      | None => Raised unpack_none_error
      | Some ctx =>
          match render (em_template m) ctx with
          | Returned body => Returned (set_template_body body m)
          | Raised e => Raised e
          end
      end
  end.

(** The message can be rendered. *)
Definition renders (m : Email) : Prop := exists m', render_message m = Returned m'.

(** The first loop: it stops at the first message that fails, the
    messages before it keeping their rendered body. *)
Fixpoint render_loop (messages : list Email) : option Exn * list Email :=
  match messages with
  | [] => (None, [])
  | m :: rest =>
      match render_message m with
      | Raised e => (Some e, m :: rest)
      | Returned m' =>
          let '(raised, rest') := render_loop rest in (raised, m' :: rest')
      end
  end.

(** [MailSender.send_message] and [Resend.send_message]. *)
Definition sender_send_message (sender : MailSender) (m : Email) (log : list Delivery)
  : option Exn * Email * list Delivery :=
  match sender with
  | AbstractSender => (Some not_implemented_error, m, log)
  | Resend =>
      let m := set_template_context None m in
      let payload := resend_payload m in
      (resend_send payload, m, log ++ [ViaResend payload])
  end.

(** The loop over a configured [MAIL_SENDER], lines 134-136. *)
Fixpoint sender_loop (sender : MailSender) (messages : list Email) (log : list Delivery)
  : MailOutcome :=
  match messages with
  | [] => MkMailOutcome None [] log
  | m :: rest =>
      let m := set_sender (fastmail_sender m) m in
      match sender_send_message sender m log with
      | (Some e, m, log) => MkMailOutcome (Some e) (m :: rest) log
      | (None, m, log) =>
          let out := sender_loop sender rest log in
          MkMailOutcome (mo_raised out) (m :: mo_messages out) (mo_log out)
      end
  end.

(** The loop that prepares the messages for SMTP, lines 138-140. *)
Fixpoint prepare_loop (messages : list Email) : PyResult (list Prepared) :=
  match messages with
  | [] => Returned []
  | m :: rest =>
      match prepare_message m with
      | Raised e => Raised e
      | Returned p =>
          match prepare_loop rest with
          | Raised e => Raised e
          | Returned ps => Returned (p :: ps)
          end
      end
  end.

(** [FastMail.send_messages], for a configuration with the given
    [MAIL_SENDER]. *)
Definition send_messages (mail_sender : option MailSender) (messages : list Email)
    (log : list Delivery) : MailOutcome :=
  match render_loop messages with
  | (Some e, messages) => MkMailOutcome (Some e) messages log
  | (None, messages) =>
      match mail_sender with
      | Some sender => sender_loop sender messages log
      | None =>
          match prepare_loop messages with
          | Raised e => MkMailOutcome (Some e) messages log
          | Returned batch =>
              MkMailOutcome (smtp_send batch) messages (log ++ [ViaSmtp batch])
          end
      end
  end.

(** [FastMail.send_message] *)
Definition send_message (mail_sender : option MailSender) (message : Email)
    (log : list Delivery) : MailOutcome :=
  send_messages mail_sender [message] log.

(** What a hook of the user manager leaves: the exception if it raised,
    the message as it is now, the tasks queued on [background_tasks]
    (when there is one) and the trace of deliveries. *)
Record HookOutcome : Type := MkHookOutcome {
  ho_raised : option Exn;
  ho_message : Email;
  ho_tasks : option (list Email);
  ho_log : list Delivery
}.

(** [UserManager.in_background], for the task [send_message message] of
    the application's mailer: a task is queued as the message it will
    send. *)
Definition in_background (background_tasks : option (list Email)) (message : Email)
    (log : list Delivery) : HookOutcome :=
  match background_tasks with
  | Some tasks => MkHookOutcome None message (Some (tasks ++ [message])) log
  | None =>
      let out := send_message MAIL_CONFIG_SENDER message log in
      MkHookOutcome (mo_raised out) (List.hd message (mo_messages out)) None (mo_log out)
  end.

(** [UserManager.send_email]; [request] is the base URL of the request
    when there is one. *)
Definition send_email (send_emails : bool) (background_tasks : option (list Email))
    (message : Email) (request : option string) (log : list Delivery) : HookOutcome :=
  if negb send_emails then MkHookOutcome None message background_tasks log
  else
    let base_url :=
      match request with
      | Some url => rstrip_slash url
      | None => BASE_URL
      end in
    match em_template_context message with
    | None => MkHookOutcome (Some item_assignment_error) message background_tasks log
    | Some ctx =>
        in_background background_tasks
          (set_template_context (Some (<["base_url" := CtxStr base_url]> ctx)) message) log
    end.

End Env.

Arguments ViaResend {Prepared} payload.
Arguments ViaSmtp {Prepared} batch.
Arguments mo_raised {Prepared} _.
Arguments mo_messages {Prepared} _.
Arguments mo_log {Prepared} _.
Arguments ho_raised {Prepared} _.
Arguments ho_message {Prepared} _.
Arguments ho_tasks {Prepared} _.
Arguments ho_log {Prepared} _.

End Mail.

(** A small mail set-up: one template, which shows [base_url]; SMTP and
    Resend accept everything. *)
Definition demo_get_template (name : string) : option Exn :=
  if String.eqb name "email/user-registered.html" then None
  else Some (MkExn (OtherException "TemplateNotFound") name).

Definition demo_render (name : string) (ctx : gmap string CtxValue) : PyResult string :=
  match ctx !! "base_url" with
  | Some (CtxStr url) => Returned (String.append "Confirm at " url)
  | Some (CtxObject _) => Returned "Confirm"
  | None => Raised (MkExn (OtherException "UndefinedError") "base_url")
  end.

Definition demo_fastmail_sender (m : Email) : string :=
  "FastAPI Starter <delivered@resend.dev>".

Definition demo_prepare_message (m : Email) : PyResult Email :=
  Returned (set_sender (demo_fastmail_sender m) m).

Definition demo_smtp_send (batch : list Email) : option Exn := None.

Definition demo_resend_send (p : ResendPayload) : option Exn := None.

Definition welcome : Email :=
  MkEmail ["b@example.com"] "Welcome to FastAPI Starter" "email/user-registered.html"
          (Some {["base_url" := CtxStr "http://localhost:8000"]}) [] [] [] None None.

Definition welcome_unknown_template : Email :=
  MkEmail ["c@example.com"] "Welcome" "email/unknown.html"
          (Some {["base_url" := CtxStr "http://localhost:8000"]}) [] [] [] None None.

Definition welcome_without_context : Email :=
  set_template_context None welcome.

Definition welcome_from_hook : Email :=
  set_template_context (Some {["user" := CtxObject "User"]}) welcome.

(** * Properties *)

(** ** Class binding *)


Lemma init_subclass_after_super cd :
  init_subclass cd =
    after_super cd
      (if declared_model_ok cd then cd_model cd
       else match infer_model (cd_orig_bases cd) with
            | Some a => Some a
            | None => cd_model cd
            end).
Proof.
  unfold init_subclass, after_super.
  destruct (generic_init_subclass cd); [| reflexivity].
  destruct (declared_model_ok cd); [reflexivity |].
  destruct (infer_model (cd_orig_bases cd)); reflexivity.
Qed.



(** C9: a subclass whose body declares an entity class as [model] keeps
    that declaration whatever its generic bases are: the hook either
    raises what its [super()] call raises, before it has looked at
    anything, or leaves the declared class.  In particular, with a first
    base [ModelManager[m']] the class is bound to the declared [m],
    although the same bases without the declaration bind it to [m'];
    and for [class X(ModelManager[m']): model = m] the hook returns. *)
Theorem explicit_model_takes_precedence
    (name : string) (m : Model) (bases : list OrigBase)
    (own plain : bool) (kwargs : list string) :
  let declared bases := MkClassDef name (Some (PyEntity m)) bases own plain kwargs in
  let undeclared bases := MkClassDef name None bases own plain kwargs in
  init_subclass (declared bases) = after_super (declared bases) (Some (PyEntity m))
  /\ (forall m' rest,
       let generic := MkOrigBase OriginModelManager [PyEntity m'] :: rest in
       init_subclass (undeclared generic) = after_super (undeclared generic) (Some (PyEntity m'))
       /\ init_subclass (declared generic) = after_super (declared generic) (Some (PyEntity m)))
  /\ (forall m',
       init_subclass (MkClassDef name (Some (PyEntity m))
                        [MkOrigBase OriginModelManager [PyEntity m']] true false [])
       = Returned (Some (PyEntity m))).
Proof.
  cbn zeta. split; [| split].
  - apply init_subclass_after_super.
  - intros m' rest. split; apply init_subclass_after_super.
  - intros m'. reflexivity.
Qed.




(** A class statement that does fail: the typing library refuses the
    bases of [Bad], and the hook raises its [TypeError] before it looks
    for an entity class. *)
Lemma bad_generic_bases_are_refused :
  cd_model Bad_def = None
  /\ infer_model (cd_orig_bases Bad_def) = None
  /\ exists e, init_subclass Bad_def = Raised e /\ exn_class e = TypeError.
Proof. split; [reflexivity |]. split; [reflexivity |]. eexists. split; reflexivity. Qed.

(** ** The scoped autoflush switch *)

Lemma set_autoflush_same b s : same_but_autoflush s (set_autoflush b s).
Proof. repeat split. Qed.

Lemma set_autoflush_restore b s :
  set_autoflush (sess_autoflush s) (set_autoflush b s) = s.
Proof. destruct s; reflexivity. Qed.

(** C6: the body of a [no_autoflush] scope starts from the caller's
    session with autoflush off and nothing else changed; however the
    body ends, with a value or with an exception, the scope ends the same
    way, the autoflush flag is the one from before the scope, and the rest
    of the session is as the body left it.  A scope around a body that
    does nothing, or that only raises, gives the session back unchanged. *)
Theorem no_autoflush_restores {A : Type} (body : M A) (s : Session) :
  let s_in := set_autoflush false s in
  let s_out := final_session (no_autoflush body s) in
  sess_autoflush s_in = false
  /\ same_but_autoflush s s_in
  /\ outcome_result (no_autoflush body s) = outcome_result (body s_in)
  /\ sess_autoflush s_out = sess_autoflush s
  /\ same_but_autoflush (final_session (body s_in)) s_out
  /\ no_autoflush (ret tt) s = Ok tt s
  /\ forall e, no_autoflush (raise e : M A) s = Raise e s.
Proof.
  cbn zeta. split; [reflexivity |]. split; [apply set_autoflush_same |].
  unfold no_autoflush.
  destruct (body (set_autoflush false s)) as [a s' | e s']; cbn.
  all: repeat split.
  all: try (unfold ret, raise; rewrite set_autoflush_restore; reflexivity).
  all: intros e0; unfold raise; rewrite set_autoflush_restore; reflexivity.
Qed.

(** ** Flushing *)

Lemma flush_new_fault s i : sess_lookup_fault (flush_new s i) = sess_lookup_fault s.
Proof.
  unfold flush_new. destruct (sess_heap s !! i) as [o |]; [| reflexivity].
  destruct (obj_attrs o !! model_pk (obj_model o)); reflexivity.
Qed.

Lemma flush_new_autoflush s i : sess_autoflush (flush_new s i) = sess_autoflush s.
Proof.
  unfold flush_new. destruct (sess_heap s !! i) as [o |]; [| reflexivity].
  destruct (obj_attrs o !! model_pk (obj_model o)); reflexivity.
Qed.

Lemma flush_new_durable s i : sess_durable (flush_new s i) = sess_durable s.
Proof.
  unfold flush_new. destruct (sess_heap s !! i) as [o |]; [| reflexivity].
  destruct (obj_attrs o !! model_pk (obj_model o)); reflexivity.
Qed.

Lemma flush_new_pending s i : sess_new (flush_new s i) = sess_new s.
Proof.
  unfold flush_new. destruct (sess_heap s !! i) as [o |]; [| reflexivity].
  destruct (obj_attrs o !! model_pk (obj_model o)); reflexivity.
Qed.

Lemma flush_new_heap_length s i :
  List.length (sess_heap (flush_new s i)) = List.length (sess_heap s).
Proof.
  unfold flush_new. destruct (sess_heap s !! i) as [o |]; [| reflexivity].
  destruct (obj_attrs o !! model_pk (obj_model o)); cbn; [reflexivity |].
  apply length_insert.
Qed.

Lemma flush_new_heap_other s i j :
  i <> j -> sess_heap (flush_new s i) !! j = sess_heap s !! j.
Proof.
  intros Hne. unfold flush_new. destruct (sess_heap s !! i) as [o |]; [| reflexivity].
  destruct (obj_attrs o !! model_pk (obj_model o)); cbn; [reflexivity |].
  apply list_lookup_insert_ne; exact Hne.
Qed.

(** What a fold of [flush_new] keeps. *)
Lemma fold_flush_new_frame (l : list ObjId) : forall s,
  let s' := fold_left flush_new l s in
  sess_lookup_fault s' = sess_lookup_fault s
  /\ sess_autoflush s' = sess_autoflush s
  /\ sess_durable s' = sess_durable s
  /\ sess_new s' = sess_new s
  /\ List.length (sess_heap s') = List.length (sess_heap s).
Proof.
  induction l as [| i l IH]; intros s; cbn.
  - repeat split.
  - destruct (IH (flush_new s i)) as (H1 & H2 & H3 & H4 & H5). cbn in *.
    rewrite H1, H2, H3, H4, H5.
    rewrite flush_new_fault, flush_new_autoflush, flush_new_durable,
      flush_new_pending, flush_new_heap_length.
    repeat split.
Qed.

Lemma fold_flush_new_heap_other (l : list ObjId) j : forall s,
  j ∉ l -> sess_heap (fold_left flush_new l s) !! j = sess_heap s !! j.
Proof.
  induction l as [| i l IH]; intros s Hj; cbn; [reflexivity |].
  rewrite IH by set_solver.
  apply flush_new_heap_other. set_solver.
Qed.

Lemma flush_frame s :
  sess_lookup_fault (flush s) = sess_lookup_fault s
  /\ sess_autoflush (flush s) = sess_autoflush s
  /\ sess_durable (flush s) = sess_durable s
  /\ sess_new (flush s) = []
  /\ List.length (sess_heap (flush s)) = List.length (sess_heap s).
Proof. exact (fold_flush_new_frame (sess_new s) (flush_dirty s)). Qed.

Lemma flush_fault s : sess_lookup_fault (flush s) = sess_lookup_fault s.
Proof. apply flush_frame. Qed.

Lemma flush_autoflush s : sess_autoflush (flush s) = sess_autoflush s.
Proof. apply flush_frame. Qed.

Lemma flush_durable s : sess_durable (flush s) = sess_durable s.
Proof. apply flush_frame. Qed.

Lemma flush_pending s : sess_new (flush s) = [].
Proof. apply flush_frame. Qed.

Lemma autoflush_now_fault s :
  sess_lookup_fault (autoflush_now s) = sess_lookup_fault s.
Proof. unfold autoflush_now. destruct (sess_autoflush s); [apply flush_fault | reflexivity]. Qed.

Lemma autoflush_now_off s : sess_autoflush s = false -> autoflush_now s = s.
Proof. unfold autoflush_now. intros ->. reflexivity. Qed.

Lemma autoflush_now_rows_off s : sess_autoflush s = false -> visible_rows s = sess_rows s.
Proof. intros H. unfold visible_rows. rewrite autoflush_now_off by exact H. reflexivity. Qed.

Lemma flush_nothing s :
  sess_rows s = [] -> sess_new s = [] -> sess_rows (flush s) = [].
Proof. intros Hr Hn. unfold flush, flush_dirty. rewrite Hr, Hn. reflexivity. Qed.

Lemma flush_new_rows_prefix s i :
  exists extra : list Row, sess_rows (flush_new s i) = sess_rows s ++ extra.
Proof.
  unfold flush_new. destruct (sess_heap s !! i) as [o |].
  - destruct (obj_attrs o !! model_pk (obj_model o)); cbn; eauto.
  - exists []. symmetry. apply app_nil_r.
Qed.

Lemma fold_flush_new_rows_prefix (l : list ObjId) : forall s,
  exists extra : list Row, sess_rows (fold_left flush_new l s) = sess_rows s ++ extra.
Proof.
  induction l as [| i l IH]; intros s; cbn.
  - exists []. symmetry. apply app_nil_r.
  - destruct (IH (flush_new s i)) as (e2 & ->).
    destruct (flush_new_rows_prefix s i) as (e1 & ->).
    exists (e1 ++ e2). symmetry. apply app_assoc.
Qed.

(** A flush rewrites the rows there are from their instances and appends
    the rows of the pending instances. *)
Lemma flush_rows_prefix s :
  exists extra : list Row,
    sess_rows (flush s) = List.map (flush_row (sess_heap s)) (sess_rows s) ++ extra.
Proof. unfold flush. apply (fold_flush_new_rows_prefix (sess_new s) (flush_dirty s)). Qed.

Lemma flush_new_heap_grows s i j o :
  sess_heap s !! j = Some o ->
  exists attrs, sess_heap (flush_new s i) !! j = Some (MkObj (obj_model o) attrs)
                /\ obj_attrs o ⊆ attrs.
Proof.
  intros Hj. destruct (decide (i = j)) as [-> | Hne].
  - unfold flush_new. rewrite Hj.
    destruct (obj_attrs o !! model_pk (obj_model o)) eqn:Hpk; cbn.
    + exists (obj_attrs o). destruct o; cbn in *. split; [exact Hj | reflexivity].
    + eexists. split.
      * apply list_lookup_insert_eq. eapply lookup_lt_Some; exact Hj.
      * apply insert_subseteq. exact Hpk.
  - exists (obj_attrs o). rewrite flush_new_heap_other by exact Hne.
    destruct o; cbn in *. split; [exact Hj | reflexivity].
Qed.

Lemma fold_flush_new_heap_grows (l : list ObjId) : forall s j o,
  sess_heap s !! j = Some o ->
  exists attrs, sess_heap (fold_left flush_new l s) !! j = Some (MkObj (obj_model o) attrs)
                /\ obj_attrs o ⊆ attrs.
Proof.
  induction l as [| i l IH]; intros s j o Hj; cbn.
  - exists (obj_attrs o). destruct o; cbn in *. split; [exact Hj | reflexivity].
  - destruct (flush_new_heap_grows s i j o Hj) as (a1 & H1 & Hsub1).
    destruct (IH _ _ _ H1) as (a2 & H2 & Hsub2). cbn in *.
    exists a2. split; [exact H2 | etrans; eassumption].
Qed.

(** A flush changes an instance only by giving it a primary key. *)
Lemma flush_heap_grows s j o :
  sess_heap s !! j = Some o ->
  exists attrs, sess_heap (flush s) !! j = Some (MkObj (obj_model o) attrs)
                /\ obj_attrs o ⊆ attrs.
Proof. intros Hj. unfold flush. apply fold_flush_new_heap_grows. exact Hj. Qed.

(** *** Flushing next to a new instance *)

Lemma fresh_untracked s o :
  session_wf s ->
  tracked (set_heap (sess_heap s ++ [o]) s) (List.length (sess_heap s)) = false.
Proof.
  intros [Hnew Hrows]. unfold tracked. cbn.
  apply orb_false_iff. split; apply bool_decide_eq_false; intros Hin.
  - rewrite Forall_forall in Hnew. apply Hnew in Hin. lia.
  - apply list_elem_of_In, in_map_iff in Hin as (r & Hr & Hin).
    rewrite Forall_forall in Hrows. apply list_elem_of_In, Hrows in Hin. lia.
Qed.

Lemma flush_row_extend heap o r :
  (row_obj r < List.length heap)%nat ->
  flush_row (heap ++ [o]) r = flush_row heap r.
Proof. intros Hr. unfold flush_row. rewrite lookup_app_l by exact Hr. reflexivity. Qed.

Lemma flush_new_extend t o j :
  (j < List.length (sess_heap t))%nat ->
  flush_new (set_heap (sess_heap t ++ [o]) t) j
  = set_heap (sess_heap (flush_new t j) ++ [o]) (flush_new t j).
Proof.
  intros Hj. unfold flush_new. cbn. rewrite lookup_app_l by exact Hj.
  destruct (sess_heap t !! j) as [oj |]; [| reflexivity].
  destruct (obj_attrs oj !! model_pk (obj_model oj)); [reflexivity |].
  unfold set_heap; cbn. rewrite insert_app_l by exact Hj. reflexivity.
Qed.

Lemma fold_flush_new_extend (l : list ObjId) o : forall t,
  Forall (fun j => (j < List.length (sess_heap t))%nat) l ->
  fold_left flush_new l (set_heap (sess_heap t ++ [o]) t)
  = set_heap (sess_heap (fold_left flush_new l t) ++ [o]) (fold_left flush_new l t).
Proof.
  induction l as [| j l IH]; intros t Hl; cbn; [reflexivity |].
  apply Forall_cons in Hl as [Hj Hl].
  rewrite flush_new_extend by exact Hj. apply IH.
  rewrite flush_new_heap_length. exact Hl.
Qed.

(** Flushing a session to which a new instance was just added: the
    flush of the session as it was, and then the new instance. *)
Lemma flush_added s o :
  session_wf s ->
  flush (MkSession (sess_heap s ++ [o]) (sess_new s ++ [List.length (sess_heap s)])
           (sess_rows s) (sess_durable s) (sess_autoflush s) (sess_next_pk s)
           (sess_lookup_fault s))
  = flush_new (set_heap (sess_heap (flush s) ++ [o]) (flush s)) (List.length (sess_heap s)).
Proof.
  intros [Hnew Hrows]. unfold flush at 1. cbn [sess_new].
  rewrite fold_left_app. cbn [fold_left]. f_equal.
  replace (flush_dirty _) with (set_heap (sess_heap (flush_dirty s) ++ [o]) (flush_dirty s)).
  - apply fold_flush_new_extend. exact Hnew.
  - unfold flush_dirty, set_heap; cbn. f_equal.
    apply map_ext_in. intros r Hr. symmetry. apply flush_row_extend.
    rewrite Forall_forall in Hrows. apply Hrows, list_elem_of_In, Hr.
Qed.

Lemma stored_attrs_subseteq m (kw : Kwargs) next : kw ⊆ stored_attrs m kw next.
Proof.
  unfold stored_attrs. destruct (kw !! model_pk m) eqn:Hpk; [reflexivity |].
  apply insert_subseteq. exact Hpk.
Qed.

Lemma stored_attrs_pk m (kw : Kwargs) next :
  is_Some (stored_attrs m kw next !! model_pk m).
Proof.
  unfold stored_attrs. destruct (kw !! model_pk m) eqn:Hpk.
  - rewrite Hpk. eauto.
  - rewrite lookup_insert_eq. eauto.
Qed.

(** Projections of the session that adding an instance leaves alone. *)
Lemma add_state_heap i s : sess_heap (add_state i s) = sess_heap s.
Proof. unfold add_state. destruct (tracked s i); reflexivity. Qed.

Lemma add_state_rows i s : sess_rows (add_state i s) = sess_rows s.
Proof. unfold add_state. destruct (tracked s i); reflexivity. Qed.

Lemma add_state_durable i s : sess_durable (add_state i s) = sess_durable s.
Proof. unfold add_state. destruct (tracked s i); reflexivity. Qed.

Create Rewrite HintDb session.
#[global] Hint Rewrite flush_fault flush_autoflush flush_durable flush_pending
  autoflush_now_fault add_state_heap add_state_rows add_state_durable : session.

(** ** Attribute assignment and row lookup *)

Lemma set_heap_id s : set_heap (sess_heap s) s = s.
Proof. destruct s; reflexivity. Qed.

(** Assigning every item of [kw] to an instance leaves it with [kw] laid
    over its former attributes, and touches nothing else. *)
Lemma setattrs_state (i : ObjId) (o : Obj) (kw : Kwargs) (s : Session) :
  sess_heap s !! i = Some o ->
  map_fold (setattr_state i) s kw
  = set_heap (<[i := MkObj (obj_model o) (kw ∪ obj_attrs o)]> (sess_heap s)) s.
Proof.
  intros Hi.
  apply (map_fold_weak_ind
           (fun r (m : Kwargs) =>
              r = set_heap (<[i := MkObj (obj_model o) (m ∪ obj_attrs o)]> (sess_heap s)) s)).
  - rewrite (left_id_L ∅ (∪)). destruct o as [mo ao]; cbn.
    rewrite list_insert_id by exact Hi. symmetry. apply set_heap_id.
  - intros k v m r Hk ->. unfold setattr_state; cbn.
    rewrite list_lookup_insert_eq by (eapply lookup_lt_Some; exact Hi). cbn.
    rewrite list_insert_insert_eq. unfold set_heap; cbn.
    rewrite insert_union_l. reflexivity.
Qed.

Lemma getattr_heap s i m (attrs : Kwargs) k v :
  sess_heap s !! i = Some (MkObj m attrs) ->
  attrs !! k = Some v ->
  getattr s i k = Some v.
Proof. intros Hi Hk. unfold getattr. rewrite Hi. exact Hk. Qed.

Lemma cols_match_subseteq (kw attrs : Kwargs) : kw ⊆ attrs -> cols_match kw attrs = true.
Proof.
  intros Hsub. unfold cols_match. apply bool_decide_eq_true.
  intros k v Hk. unfold col. rewrite (lookup_weaken _ _ _ _ Hk Hsub). reflexivity.
Qed.

Lemma find_pk_last m (id : Value) (rows0 : list Row) (r1 : Row) :
  (forall r, In r rows0 -> (row_model r, pk_of r) <> (m, Some id)) ->
  row_model r1 = m ->
  pk_of r1 = Some id ->
  find_pk m id (rows0 ++ [r1]) = Some (row_obj r1).
Proof.
  intros Hnone Hm1 Hpk1. unfold find_pk.
  induction rows0 as [| r rows0 IH]; cbn.
  - unfold pk_of in Hpk1. rewrite Hm1 in Hpk1.
    rewrite (bool_decide_eq_true_2 _ Hm1), (bool_decide_eq_true_2 _ Hpk1). reflexivity.
  - destruct (bool_decide (row_model r = m)) eqn:Hrm; cbn.
    + destruct (bool_decide (row_cols r !! model_pk m = Some id)) eqn:Hrp; cbn.
      * exfalso. apply (Hnone r); [left; reflexivity |].
        apply bool_decide_eq_true in Hrm, Hrp. unfold pk_of. rewrite Hrm, Hrp. reflexivity.
      * apply IH. intros r' Hr'. apply Hnone. right. exact Hr'.
    + apply IH. intros r' Hr'. apply Hnone. right. exact Hr'.
Qed.

Lemma one_or_none_cases (l : list ObjId) (s : Session) :
  match l with
  | [] => one_or_none l s = Ok None s
  | [i] => one_or_none l s = Ok (Some i) s
  | _ :: _ :: _ =>
      exists e, one_or_none l s = Raise e s /\ exn_class e = MultipleResultsFound
  end.
Proof. destruct l as [| i [| j l]]; cbn; eauto. Qed.

Lemma select_filter_by_empty m (kw : Kwargs) :
  select_filter_by (MkSelect m ∅) kw = MkSelect m kw.
Proof. unfold select_filter_by. cbn. f_equal. apply (right_id_L ∅ (∪)). Qed.

(** ** Keywords given to [create] *)

Lemma keyword_twice_false (d kw : Kwargs) :
  keyword_twice d kw = false
  <-> d ##ₘ kw /\ d !! "commit" = None /\ kw !! "commit" = None.
Proof.
  unfold keyword_twice. rewrite !orb_false_iff, negb_false_iff.
  rewrite !bool_decide_eq_false, bool_decide_eq_true.
  rewrite <- !eq_None_not_Some, <- disjoint_intersection_L, <- map_disjoint_dom.
  tauto.
Qed.

Lemma keyword_self_false (d kw : Kwargs) :
  keyword_self d kw = false <-> d !! "self" = None /\ kw !! "self" = None.
Proof.
  unfold keyword_self. rewrite !orb_false_iff, !bool_decide_eq_false.
  rewrite <- !eq_None_not_Some. tauto.
Qed.

Lemma keyword_clash_false (d kw : Kwargs) :
  keyword_clash d kw = false
  <-> d ##ₘ kw /\ d !! "commit" = None /\ kw !! "commit" = None
      /\ d !! "self" = None /\ kw !! "self" = None.
Proof.
  unfold keyword_clash. rewrite orb_false_iff, keyword_twice_false, keyword_self_false.
  tauto.
Qed.

Lemma keyword_clash_true (d kw : Kwargs) :
  keyword_clash d kw = true
  <-> ~ d ##ₘ kw \/ is_Some (d !! "commit") \/ is_Some (kw !! "commit")
      \/ is_Some (d !! "self") \/ is_Some (kw !! "self").
Proof.
  rewrite <- not_false_iff_true, keyword_clash_false, !eq_None_not_Some.
  split; [| tauto].
  intros H.
  destruct (decide (d ##ₘ kw)); [| tauto].
  destruct (decide (is_Some (d !! "commit"))); [tauto |].
  destruct (decide (is_Some (kw !! "commit"))); [tauto |].
  destruct (decide (is_Some (d !! "self"))); [tauto |].
  destruct (decide (is_Some (kw !! "self"))); [tauto |].
  tauto.
Qed.

(** With clashing keywords the call raises a [TypeError] and leaves the
    session alone. *)
Lemma create_unpacked_clash mgr (d kw : Kwargs) commit_flag s :
  keyword_clash d kw = true ->
  exists e, exn_class e = TypeError /\ create_unpacked mgr d kw commit_flag s = Raise e s.
Proof.
  unfold keyword_clash, create_unpacked. intros H.
  destruct (keyword_twice d kw); [eexists; split; [| reflexivity]; reflexivity |].
  cbn in H. rewrite H. eexists; split; [| reflexivity]; reflexivity.
Qed.

(** ** The lookup of [get_or_create] and [update_or_create] *)

(** The handler of [_maybe_get_by], by cases. *)
Lemma maybe_get_by_raise mgr (kw : Kwargs) s e s' :
  get_by mgr kw (set_autoflush false s) = Raise e s' ->
  _maybe_get_by mgr kw s =
    if swallowed e then Ok None (set_autoflush (sess_autoflush s) s')
    else Raise e (set_autoflush (sess_autoflush s) s').
Proof.
  intros H. unfold _maybe_get_by, no_autoflush, try_except, swallowed. rewrite H.
  destruct (is_statement_error e); cbn; [| reflexivity].
  destruct (str_contains unset_column_marker (exn_str e)); reflexivity.
Qed.

Lemma maybe_get_by_ok mgr (kw : Kwargs) s r s' :
  get_by mgr kw (set_autoflush false s) = Ok r s' ->
  _maybe_get_by mgr kw s = Ok r (set_autoflush (sess_autoflush s) s').
Proof.
  intros H. unfold _maybe_get_by, no_autoflush, try_except. rewrite H. reflexivity.
Qed.

(** C1: when the lookup inside [_maybe_get_by] raises a statement error
    whose text contains the unset-column marker, [_maybe_get_by] returns
    [None] and [get_or_create] and [update_or_create] go on to their
    create branch; when it raises anything else, that very exception comes
    out of all three.  Either way autoflush is back to what it was. *)
Theorem maybe_get_by_catches_only_unset_column
    (mgr : Manager) (defaults : option Kwargs) (commit : bool) (kw : Kwargs)
    (s s' : Session) (e : Exn) :
  get_by mgr kw (set_autoflush false s) = Raise e s' ->
  let s1 := set_autoflush (sess_autoflush s) s' in
  let create_branch :=
    (created <~ create_unpacked mgr (default ∅ defaults) kw commit ;;
     ret (created, true)) in
  (is_statement_error e = true
   /\ str_contains unset_column_marker (exn_str e) = true ->
     _maybe_get_by mgr kw s = Ok None s1
     /\ get_or_create mgr defaults commit kw s = create_branch s1
     /\ update_or_create mgr defaults commit kw s = create_branch s1)
  /\ (is_statement_error e = false
      \/ str_contains unset_column_marker (exn_str e) = false ->
     _maybe_get_by mgr kw s = Raise e s1
     /\ get_or_create mgr defaults commit kw s = Raise e s1
     /\ update_or_create mgr defaults commit kw s = Raise e s1).
Proof.
  intros H s1 create_branch.
  pose proof (maybe_get_by_raise _ _ _ _ _ H) as Hm. fold s1 in Hm.
  unfold get_or_create, update_or_create, bind. rewrite Hm. unfold swallowed.
  split.
  - intros [-> ->]. cbn. repeat split.
  - intros [-> | ->]; [| rewrite andb_false_r]; cbn; repeat split.
Qed.

Lemma maybe_get_by_catches_only_unset_column_witness :
  let s := with_fault unset_column_error empty_session in
  let s_lost := with_fault connection_lost empty_session in
  (_maybe_get_by UserModelManager email_b s = Ok None s
   /\ get_or_create UserModelManager (Some name_B) false email_b s
      = (created <~ create_unpacked UserModelManager name_B email_b false ;;
         ret (created, true)) s
   /\ update_or_create UserModelManager (Some name_B) false email_b s
      = (created <~ create_unpacked UserModelManager name_B email_b false ;;
         ret (created, true)) s)
  /\ (_maybe_get_by UserModelManager email_b s_lost = Raise connection_lost s_lost
      /\ get_or_create UserModelManager (Some name_B) false email_b s_lost
         = Raise connection_lost s_lost
      /\ update_or_create UserModelManager (Some name_B) false email_b s_lost
         = Raise connection_lost s_lost).
Proof.
  intros s s_lost. split.
  - apply (maybe_get_by_catches_only_unset_column UserModelManager (Some name_B)
             false email_b s s unset_column_error); [reflexivity |].
    split; reflexivity.
  - apply (maybe_get_by_catches_only_unset_column UserModelManager (Some name_B)
             false email_b s_lost s_lost connection_lost); [reflexivity |].
    right; reflexivity.
Defined.


(** Case analysis on what a call gave. *)
Ltac crush_outcome :=
  repeat match goal with
         | H : exists _, _ |- _ => destruct H
         | H : _ /\ _ |- _ => destruct H
         end;
  simplify_eq /=; try lia; try done; try (repeat eexists; done).

(** ** A manager bound to an entity class *)

Section BoundManager.

Variable mgr : Manager.
Variable m : Model.
Hypothesis bound : mgr_model mgr = Some m.

(** *** The operations, spelled out *)

Lemma get_by_bound (kw : Kwargs) s :
  get_by mgr kw s =
    match sess_lookup_fault s with
    | Some e => Raise e (autoflush_now s)
    | None => one_or_none (List.map row_obj (matching_rows m kw (visible_rows s)))
                          (autoflush_now s)
    end.
Proof.
  unfold get_by, select, self_model, bind, ret. rewrite bound.
  rewrite select_filter_by_empty. unfold session_execute. cbn.
  rewrite autoflush_now_fault.
  destruct (sess_lookup_fault s); reflexivity.
Qed.

Lemma get_bound (id : Value) s : get mgr id s = session_get m id s.
Proof. unfold get, self_model, bind, ret. rewrite bound. reflexivity. Qed.

Lemma maybe_get_by_bound (kw : Kwargs) s :
  sess_lookup_fault s = None ->
  _maybe_get_by mgr kw s
  = match matching_rows m kw (sess_rows s) with
    | [] => Ok None s
    | [r] => Ok (Some (row_obj r)) s
    | _ :: _ :: _ =>
        Raise (MkExn MultipleResultsFound
                 "Multiple rows were found when one or none was required") s
    end.
Proof.
  intros Hf.
  pose proof (get_by_bound kw (set_autoflush false s)) as Hg.
  cbn [sess_lookup_fault set_autoflush] in Hg. rewrite Hf in Hg.
  rewrite autoflush_now_rows_off, autoflush_now_off in Hg by reflexivity.
  cbn [sess_rows set_autoflush] in Hg.
  destruct (matching_rows m kw (sess_rows s)) as [| r [| r' rows']]; cbn in Hg.
  - rewrite (maybe_get_by_ok _ _ _ _ _ Hg), set_autoflush_restore. reflexivity.
  - rewrite (maybe_get_by_ok _ _ _ _ _ Hg), set_autoflush_restore. reflexivity.
  - rewrite (maybe_get_by_raise _ _ _ _ _ Hg), set_autoflush_restore. reflexivity.
Qed.

(** [create] always returns, and the instance is a new object of the
    bound class. *)
Lemma create_bound (commit_flag : bool) (kw : Kwargs) s :
  let i := List.length (sess_heap s) in
  let s0 := add_state i (set_heap (sess_heap s ++ [MkObj m kw]) s) in
  create mgr commit_flag kw s = Ok i (if commit_flag then commit_state s0 else s0).
Proof.
  unfold create, self_model, bind, ret. rewrite bound.
  destruct commit_flag; reflexivity.
Qed.

(** The instance [create] returns carries the given field values; a
    commit may add its primary key. *)
Lemma create_returns (commit_flag : bool) (kw : Kwargs) s :
  exists s1 attrs,
    create mgr commit_flag kw s = Ok (List.length (sess_heap s)) s1
    /\ sess_heap s1 !! List.length (sess_heap s) = Some (MkObj m attrs)
    /\ kw ⊆ attrs.
Proof.
  rewrite create_bound.
  set (i := List.length (sess_heap s)).
  set (s0 := add_state i (set_heap (sess_heap s ++ [MkObj m kw]) s)).
  assert (Hi0 : sess_heap s0 !! i = Some (MkObj m kw)).
  { subst s0 i. autorewrite with session. cbn. apply list_lookup_middle. reflexivity. }
  destruct commit_flag.
  - destruct (flush_heap_grows _ _ _ Hi0) as (attrs & Ha & Hsub).
    exists (commit_state s0), attrs. repeat split; [exact Ha | exact Hsub].
  - exists s0, kw. split; [reflexivity |]. split; [exact Hi0 | reflexivity].
Qed.

(** The create branch with keywords that do not clash: a new instance
    that carries the defaults and the filter. *)
Lemma create_unpacked_returns (d kw : Kwargs) (commit_flag : bool) s :
  keyword_clash d kw = false ->
  exists s2,
    create_unpacked mgr d kw commit_flag s = Ok (List.length (sess_heap s)) s2
    /\ (forall k v, d !! k = Some v \/ kw !! k = Some v ->
                    getattr s2 (List.length (sess_heap s)) k = Some v).
Proof.
  intros Hc. unfold create_unpacked.
  assert (Hts : keyword_twice d kw = false /\ keyword_self d kw = false)
    by (apply orb_false_iff; exact Hc).
  destruct Hts as [-> ->].
  destruct (create_returns commit_flag (d ∪ kw) s) as (s2 & attrs & Hcr & Hi & Hsub).
  exists s2. split; [exact Hcr |].
  apply keyword_clash_false in Hc as (Hdisj & _).
  intros k v Hkv. eapply getattr_heap; [exact Hi |].
  eapply lookup_weaken; [| exact Hsub].
  destruct Hkv as [Hd | Hkw].
  - apply lookup_union_Some_l. exact Hd.
  - apply lookup_union_Some_r; assumption.
Qed.

(** [create] with the commit flag, on a session whose tracked instances
    exist: whatever was pending is flushed, then the new instance, whose
    row comes last. *)
Lemma create_commit (kw : Kwargs) s :
  session_wf s ->
  let i := List.length (sess_heap s) in
  let f := flush s in
  let attrs := stored_attrs m kw (sess_next_pk f) in
  exists s1,
    create mgr true kw s = Ok i s1
    /\ sess_heap s1 = sess_heap f ++ [MkObj m attrs]
    /\ sess_rows s1 = sess_rows f ++ [MkRow i m attrs]
    /\ sess_durable s1 = sess_rows s1
    /\ sess_new s1 = []
    /\ sess_autoflush s1 = sess_autoflush s
    /\ sess_lookup_fault s1 = sess_lookup_fault s.
Proof.
  intros Hwf i f attrs. rewrite create_bound. fold i.
  eexists. split; [reflexivity |].
  unfold add_state. rewrite (fresh_untracked s _ Hwf).
  unfold commit_state. cbn [set_heap sess_new sess_heap sess_rows sess_durable
    sess_autoflush sess_next_pk sess_lookup_fault].
  rewrite (flush_added s _ Hwf). fold f. fold i.
  assert (Hlen : List.length (sess_heap f) = i) by apply flush_frame.
  assert (Hlook : (sess_heap f ++ [MkObj m kw]) !! i = Some (MkObj m kw)).
  { apply list_lookup_middle. symmetry. exact Hlen. }
  unfold flush_new. cbn [sess_heap set_heap]. rewrite Hlook. cbn [obj_attrs obj_model].
  subst attrs. unfold stored_attrs.
  destruct (kw !! model_pk m) eqn:Hpk; cbn.
  - repeat split; apply flush_frame.
  - rewrite (insert_app_r_alt (sess_heap f) _ i) by lia.
    rewrite Hlen, Nat.sub_diag. cbn.
    repeat split; apply flush_frame.
Qed.

(** *** Single-record lookups *)

(** C3: on a bound manager and a store that answers the query, [get_by]
    raises [MultipleResultsFound] exactly when more than one of the rows
    the query observes matches the filter, and raises nothing else;
    it returns [None] exactly when no row matches, and returns an instance
    exactly when one row matches, the instance being the one that stands
    for that row. *)
Theorem get_by_one_or_none (kw : Kwargs) (s : Session) :
  sess_lookup_fault s = None ->
  let rows := matching_rows m kw (visible_rows s) in
  ((exists e s', get_by mgr kw s = Raise e s' /\ exn_class e = MultipleResultsFound)
     <-> (1 < List.length rows)%nat)
  /\ ((exists e s', get_by mgr kw s = Raise e s') <-> (1 < List.length rows)%nat)
  /\ ((exists s', get_by mgr kw s = Ok None s') <-> List.length rows = 0%nat)
  /\ ((exists i s', get_by mgr kw s = Ok (Some i) s') <-> List.length rows = 1%nat)
  /\ (forall i, (exists s', get_by mgr kw s = Ok (Some i) s')
                <-> List.map row_obj rows = [i]).
Proof.
  intros Hf rows. rewrite get_by_bound, Hf. fold rows.
  pose proof (one_or_none_cases (List.map row_obj rows) (autoflush_now s)) as Hc.
  destruct rows as [| r [| r' rows']]; cbn in Hc |- *.
  - rewrite Hc. repeat first [split | intro]; crush_outcome.
  - rewrite Hc. repeat first [split | intro]; crush_outcome.
  - destruct Hc as (e & -> & He). repeat first [split | intro]; crush_outcome.
Qed.

(** C8: on a bound manager and a store that answers the query, a lookup
    that finds no record returns [None] and does not raise: [get] when
    no row has the primary key, [get_by] when no row matches the filter.
    In a session in which nothing was ever created, [get] returns [None]
    for every primary key. *)
Theorem missing_record_is_none (s : Session) :
  sess_lookup_fault s = None ->
  (forall id : Value,
      find_pk m id (sess_rows s) = None ->
      find_pk m id (visible_rows s) = None ->
      get mgr id s = Ok None (autoflush_now s))
  /\ (forall kw : Kwargs,
      matching_rows m kw (visible_rows s) = [] ->
      get_by mgr kw s = Ok None (autoflush_now s))
  /\ (sess_rows s = [] -> sess_new s = [] ->
      forall id : Value, get mgr id s = Ok None (autoflush_now s)).
Proof.
  intros Hf.
  assert (Hget : forall id : Value,
             find_pk m id (sess_rows s) = None ->
             find_pk m id (visible_rows s) = None ->
             get mgr id s = Ok None (autoflush_now s)).
  { intros id H0 H1. rewrite get_bound. unfold session_get.
    rewrite H0. autorewrite with session. rewrite Hf. unfold visible_rows in H1.
    rewrite H1. reflexivity. }
  split; [exact Hget |]. split.
  - intros kw Hrows. rewrite get_by_bound, Hf, Hrows. reflexivity.
  - intros Hr Hn id. apply Hget.
    + rewrite Hr. reflexivity.
    + unfold visible_rows, autoflush_now.
      destruct (sess_autoflush s); [rewrite flush_nothing by assumption | rewrite Hr];
        reflexivity.
Qed.

(** *** The create branch *)

(** C10, amended: when [get_or_create] or [update_or_create] reaches the
    create branch, and the defaults and the filter have disjoint keys none
    of which is [commit] or [self], the call returns a new instance
    carrying every default and every filter value, with [True]; when a
    key appears in both, or one of them has the key [commit] or [self],
    the call raises [TypeError] and the session is left without a new
    record. *)
Theorem create_branch_keywords
    (defaults : option Kwargs) (commit_flag : bool) (kw : Kwargs) (s s1 : Session) :
  _maybe_get_by mgr kw s = Ok None s1 ->
  let d := default ∅ defaults in
  let i := List.length (sess_heap s1) in
  (d ##ₘ kw -> d !! "commit" = None -> kw !! "commit" = None ->
   d !! "self" = None -> kw !! "self" = None ->
     exists s2,
       get_or_create mgr defaults commit_flag kw s = Ok (i, true) s2
       /\ update_or_create mgr defaults commit_flag kw s = Ok (i, true) s2
       /\ sess_heap s1 !! i = None
       /\ forall k v, d !! k = Some v \/ kw !! k = Some v -> getattr s2 i k = Some v)
  /\ (~ d ##ₘ kw \/ is_Some (d !! "commit") \/ is_Some (kw !! "commit")
      \/ is_Some (d !! "self") \/ is_Some (kw !! "self") ->
      exists e,
        exn_class e = TypeError
        /\ get_or_create mgr defaults commit_flag kw s = Raise e s1
        /\ update_or_create mgr defaults commit_flag kw s = Raise e s1).
Proof.
  intros Hlook d i. unfold get_or_create, update_or_create, bind.
  rewrite Hlook. fold d. split.
  - intros Hdisj Hdc Hkc Hds Hks.
    assert (Hc : keyword_clash d kw = false) by (apply keyword_clash_false; auto).
    destruct (create_unpacked_returns d kw commit_flag s1 Hc) as (s2 & Hcr & Hattrs).
    exists s2. rewrite Hcr. unfold ret. repeat split.
    + apply lookup_ge_None. reflexivity.
    + exact Hattrs.
  - intros Hn. apply keyword_clash_true in Hn.
    destruct (create_unpacked_clash mgr d kw commit_flag s1 Hn) as (e & He & Hcr).
    exists e. rewrite Hcr. repeat split. exact He.
Qed.

(** *** [update_or_create] *)


(** *** Create, then look up *)

(** C7, amended: on a bound manager, [create] with the commit flag set,
    followed by [get] on the primary key of the created instance, returns
    that instance, and each supplied field has the supplied value;
    primary keys are assumed to stay unique in the store, which is the
    store's constraint and not checked by the manager. *)
Theorem create_commit_get_round_trip (kw : Kwargs) (s : Session) :
  session_wf s ->
  primary_keys_unique (final_session (create mgr true kw s)) ->
  exists i s1 pk,
    create mgr true kw s = Ok i s1
    /\ sess_heap s !! i = None
    /\ getattr s1 i (model_pk m) = Some pk
    /\ get mgr pk s1 = Ok (Some i) s1
    /\ forall k v, kw !! k = Some v -> getattr s1 i k = Some v.
Proof.
  intros Hwf Huniq.
  destruct (create_commit kw s Hwf) as (s1 & Hcr & Hheap & Hrows & _).
  rewrite Hcr in Huniq. cbn [final_session] in Huniq.
  set (i := List.length (sess_heap s)) in *.
  set (attrs := stored_attrs m kw (sess_next_pk (flush s))) in *.
  destruct (stored_attrs_pk m kw (sess_next_pk (flush s))) as [pk Hpk]. fold attrs in Hpk.
  assert (Hi : sess_heap s1 !! i = Some (MkObj m attrs)).
  { rewrite Hheap. apply list_lookup_middle. symmetry. apply flush_frame. }
  exists i, s1, pk. split; [exact Hcr |]. split; [apply lookup_ge_None; reflexivity |].
  split; [exact (getattr_heap _ _ _ _ _ _ Hi Hpk) |]. split.
  - rewrite get_bound. unfold session_get.
    unfold primary_keys_unique in Huniq. rewrite Hrows, map_app in Huniq.
    apply NoDup_app in Huniq as (_ & Hfresh & _).
    rewrite Hrows, (find_pk_last m pk _ (MkRow i m attrs));
      [reflexivity | | reflexivity | exact Hpk].
    intros r Hr Hkey. apply (Hfresh (row_model r, pk_of r)).
    + apply list_elem_of_In, in_map_iff. exists r. split; [reflexivity | exact Hr].
    + rewrite Hkey. cbn. unfold pk_of; cbn. rewrite Hpk. left.
  - intros k v Hk. eapply getattr_heap; [exact Hi |].
    eapply lookup_weaken; [exact Hk | apply stored_attrs_subseteq].
Qed.

(** C5, amended: on a bound manager, a store that answers queries and
    keywords that do not clash (no key in both the defaults and the
    filter, none of them [commit] or [self]), starting from a session
    whose tracked instances exist and in which no row
    matches the filter, neither as the store has it nor once pending
    changes are flushed, [get_or_create] with the commit flag set returns
    a new instance with [True], carrying the defaults and the filter; the
    same call again, with or without the commit flag, returns that
    instance with [False] and leaves the session, and so every field of
    the instance, as it was. *)
Theorem get_or_create_twice
    (defaults : option Kwargs) (commit_again : bool) (kw : Kwargs) (s : Session) :
  session_wf s ->
  sess_lookup_fault s = None ->
  matching_rows m kw (sess_rows s) = [] ->
  matching_rows m kw (sess_rows (flush s)) = [] ->
  keyword_clash (default ∅ defaults) kw = false ->
  exists i s1,
    get_or_create mgr defaults true kw s = Ok (i, true) s1
    /\ sess_heap s !! i = None
    /\ (forall k v, default ∅ defaults !! k = Some v \/ kw !! k = Some v ->
                    getattr s1 i k = Some v)
    /\ get_or_create mgr defaults commit_again kw s1 = Ok (i, false) s1.
Proof.
  intros Hwf Hf Hrows0 Hrows1 Hc.
  set (d := default ∅ defaults) in *.
  destruct (create_commit (d ∪ kw) s Hwf)
    as (s1 & Hcr & Hheap & Hrows & _ & _ & _ & Hf1).
  set (i := List.length (sess_heap s)) in *.
  set (attrs := stored_attrs m (d ∪ kw) (sess_next_pk (flush s))) in *.
  assert (Hkw : kw ⊆ attrs).
  { etrans; [| apply stored_attrs_subseteq].
    apply map_union_subseteq_r. apply keyword_clash_false in Hc. tauto. }
  assert (Hd : d ⊆ attrs).
  { etrans; [| apply stored_attrs_subseteq]. apply map_union_subseteq_l. }
  assert (Hi : sess_heap s1 !! i = Some (MkObj m attrs)).
  { rewrite Hheap. apply list_lookup_middle. symmetry. apply flush_frame. }
  exists i, s1. split; [| split; [| split]].
  - unfold get_or_create, bind. rewrite (maybe_get_by_bound _ _ Hf), Hrows0.
    fold d. unfold create_unpacked.
    assert (Hts : keyword_twice d kw = false /\ keyword_self d kw = false)
      by (apply orb_false_iff; exact Hc).
    destruct Hts as [-> ->]. rewrite Hcr. reflexivity.
  - apply lookup_ge_None. reflexivity.
  - intros k v [Hk | Hk]; (eapply getattr_heap; [exact Hi |]);
      eapply lookup_weaken; eassumption.
  - unfold get_or_create, bind. rewrite (maybe_get_by_bound kw s1) by congruence.
    rewrite Hrows. unfold matching_rows. rewrite List.filter_app.
    fold (matching_rows m kw (sess_rows (flush s))).
    rewrite Hrows1. cbn. unfold row_matches; cbn.
    rewrite (bool_decide_eq_true_2 _ eq_refl), (cols_match_subseteq _ _ Hkw). reflexivity.
Qed.

End BoundManager.

(** ** The properties on concrete sessions *)

Lemma get_by_one_or_none_witness :
  let s1 := session_b in
  let s2 := final_session (create UserModelManager true email_b s1) in
  (exists s', get_by UserModelManager email_b empty_session = Ok None s')
  /\ (exists s', get_by UserModelManager email_b s1 = Ok (Some 0%nat) s')
  /\ (exists e s', get_by UserModelManager email_b s2 = Raise e s'
                   /\ exn_class e = MultipleResultsFound).
Proof.
  intros s1 s2. split; [| split].
  - apply (get_by_one_or_none UserModelManager User eq_refl email_b empty_session
             eq_refl). reflexivity.
  - apply (get_by_one_or_none UserModelManager User eq_refl email_b s1 eq_refl).
    reflexivity.
  - apply (get_by_one_or_none UserModelManager User eq_refl email_b s2 eq_refl).
    vm_compute. lia.
Defined.

Lemma missing_record_is_none_witness :
  get UserModelManager (VInt 7) empty_session = Ok None empty_session
  /\ get_by UserModelManager email_b empty_session = Ok None empty_session.
Proof.
  split.
  - apply (missing_record_is_none UserModelManager User eq_refl empty_session eq_refl);
      reflexivity.
  - apply (missing_record_is_none UserModelManager User eq_refl empty_session eq_refl).
    reflexivity.
Defined.

(** C10, as stated, fails: the defaults and the filter share no key and
    the create branch is reached, yet the call raises [TypeError] and
    creates nothing, because [defaults] names [commit], the keyword that
    the call passes itself. *)
Lemma disjoint_keys_do_not_suffice :
  let d : Kwargs := {[ "commit" := VBool true ]} in
  let e := MkExn TypeError "got multiple values for keyword argument" in
  _maybe_get_by UserModelManager email_b empty_session = Ok None empty_session
  /\ d ##ₘ email_b
  /\ get_or_create UserModelManager (Some d) false email_b empty_session
     = Raise e empty_session
  /\ update_or_create UserModelManager (Some d) false email_b empty_session
     = Raise e empty_session.
Proof.
  cbn zeta. split; [reflexivity |]. split; [| split; reflexivity].
  apply map_disjoint_singleton_l. reflexivity.
Qed.

Lemma create_branch_keywords_witness :
  (exists s2,
      get_or_create UserModelManager (Some name_B) false email_b empty_session
      = Ok (0%nat, true) s2
      /\ getattr s2 0%nat "name" = Some (VStr "B")
      /\ getattr s2 0%nat "email" = Some (VStr "b@x.com"))
  /\ (exists e,
        exn_class e = TypeError
        /\ get_or_create UserModelManager (Some {[ "email" := VStr "a@x.com" ]})
             false email_b empty_session = Raise e empty_session)
  /\ (exists e,
        exn_class e = TypeError
        /\ get_or_create UserModelManager (Some {[ "self" := VInt 1 ]})
             false email_b empty_session = Raise e empty_session).
Proof.
  assert (Hdisj : name_B ##ₘ email_b)
    by (apply map_disjoint_singleton_l; reflexivity).
  assert (Hclash : ~ ({[ "email" := VStr "a@x.com" ]} : Kwargs) ##ₘ email_b)
    by (rewrite map_disjoint_singleton_l; discriminate).
  split; [| split].
  - destruct (create_branch_keywords UserModelManager User eq_refl (Some name_B) false
                email_b empty_session empty_session eq_refl) as [Hok _].
    destruct (Hok Hdisj eq_refl eq_refl eq_refl eq_refl) as (s2 & Hg & _ & _ & Hattrs).
    exists s2. split; [exact Hg |]. split; apply Hattrs.
    + left. reflexivity.
    + right. reflexivity.
  - destruct (create_branch_keywords UserModelManager User eq_refl
                (Some {[ "email" := VStr "a@x.com" ]}) false
                email_b empty_session empty_session eq_refl) as [_ Hno].
    destruct (Hno (or_introl Hclash)) as (e & He & Hg & _).
    exists e. split; assumption.
  - destruct (create_branch_keywords UserModelManager User eq_refl
                (Some {[ "self" := VInt 1 ]}) false
                email_b empty_session empty_session eq_refl) as [_ Hno].
    destruct Hno as (e & He & Hg & _).
    { right. right. right. left. exists (VInt 1). reflexivity. }
    exists e. split; assumption.
Defined.


(** C7, as stated, fails: with the commit flag left off and autoflush
    off, as the session factory of the application sets it, the created
    instance is only pending, and [get] on its primary key finds nothing. *)
Lemma create_without_commit_is_not_found :
  let created := create AccessTokenManager false token_t empty_session in
  let s1 := final_session created in
  outcome_result created = Returned 0%nat
  /\ getattr s1 0%nat (model_pk AccessToken) = Some (VStr "t")
  /\ sess_new s1 = [0%nat]
  /\ get AccessTokenManager (VStr "t") s1 = Ok None s1.
Proof. vm_compute. repeat split. Qed.

Lemma create_commit_get_round_trip_witness :
  exists i s1 pk,
    create UserModelManager true (name_B ∪ email_b) session_b = Ok i s1
    /\ sess_heap session_b !! i = None
    /\ getattr s1 i "id" = Some pk
    /\ get UserModelManager pk s1 = Ok (Some i) s1
    /\ forall k v, (name_B ∪ email_b) !! k = Some v -> getattr s1 i k = Some v.
Proof.
  apply (create_commit_get_round_trip UserModelManager User eq_refl
           (name_B ∪ email_b) session_b).
  - split; vm_compute; repeat constructor.
  - apply (bool_decide_unpack (primary_keys_unique _)). vm_compute. exact I.
Defined.

(** C5, as stated, fails: with the commit flag left off, the instance of
    the first call is only pending, the lookup of the second call runs
    with autoflush suspended and does not see it, and the second call
    creates a second instance. *)
Lemma get_or_create_twice_without_commit :
  let first := get_or_create UserModelManager (Some name_B) false email_b empty_session in
  let second :=
    get_or_create UserModelManager (Some name_B) false email_b (final_session first) in
  matching_rows User email_b (sess_rows empty_session) = []
  /\ outcome_result first = Returned (0%nat, true)
  /\ outcome_result second = Returned (1%nat, true)
  /\ sess_new (final_session second) = [0%nat; 1%nat]
  /\ sess_rows (final_session second) = [].
Proof. vm_compute. repeat split. Qed.

Lemma get_or_create_twice_witness :
  exists i s1,
    get_or_create UserModelManager (Some name_B) true email_b empty_session
    = Ok (i, true) s1
    /\ sess_heap empty_session !! i = None
    /\ (forall k v, name_B !! k = Some v \/ email_b !! k = Some v ->
                    getattr s1 i k = Some v)
    /\ get_or_create UserModelManager (Some name_B) false email_b s1 = Ok (i, false) s1.
Proof.
  apply (get_or_create_twice UserModelManager User eq_refl (Some name_B) false email_b
           empty_session).
  - split; constructor.
  - reflexivity.
  - reflexivity.
  - reflexivity.
  - vm_compute. reflexivity.
Defined.

(** * Further properties of the manager *)

(** ** Lookups leave the session alone *)

Lemma one_or_none_session (l : list ObjId) (s : Session) :
  final_session (one_or_none l s) = s.
Proof. destruct l as [| i [| j l]]; reflexivity. Qed.

(** With autoflush off, [get_by] changes nothing, on any manager. *)
Lemma get_by_frame_off mgr (kw : Kwargs) s :
  sess_autoflush s = false -> final_session (get_by mgr kw s) = s.
Proof.
  intros Hoff. destruct (mgr_model mgr) as [m |] eqn:Hm.
  - rewrite (get_by_bound mgr m Hm), (autoflush_now_off s Hoff).
    destruct (sess_lookup_fault s); [reflexivity | apply one_or_none_session].
  - unfold get_by, select, self_model, bind. rewrite Hm. reflexivity.
Qed.

(** X1: whatever the manager, the filter and the session, and whether it
    returns an instance, returns [None] or raises, [_maybe_get_by] leaves
    the session exactly as it found it: in particular it flushes nothing,
    even on a session whose autoflush is on. *)
Theorem maybe_get_by_leaves_session (mgr : Manager) (kw : Kwargs) (s : Session) :
  final_session (_maybe_get_by mgr kw s) = s.
Proof.
  unfold _maybe_get_by, no_autoflush, try_except.
  pose proof (get_by_frame_off mgr kw (set_autoflush false s) eq_refl) as Hframe.
  destruct (get_by mgr kw (set_autoflush false s)) as [a s' | e s'];
    cbn in Hframe; subst s'.
  - apply set_autoflush_restore.
  - destruct (is_statement_error e); cbn;
      [destruct (str_contains unset_column_marker (exn_str e)); cbn |];
      apply set_autoflush_restore.
Qed.

Section BoundManagerMore.

Variable mgr : Manager.
Variable m : Model.
Hypothesis bound : mgr_model mgr = Some m.

(** X2: when exactly one row matches the filter, [get_or_create] returns
    the instance of that row with [False] and leaves the session exactly
    as it was, whatever the defaults and the commit flag: nothing is
    created, added or committed. *)
Theorem get_or_create_existing
    (defaults : option Kwargs) (commit_flag : bool) (kw : Kwargs) (s : Session) (r : Row) :
  sess_lookup_fault s = None ->
  matching_rows m kw (sess_rows s) = [r] ->
  get_or_create mgr defaults commit_flag kw s = Ok (row_obj r, false) s.
Proof.
  intros Hf Hrows. unfold get_or_create, bind.
  rewrite (maybe_get_by_bound mgr m bound kw s Hf), Hrows. reflexivity.
Qed.

(** X3: when more than one row matches the filter, [get_or_create] and
    [update_or_create] raise [MultipleResultsFound]: the ambiguity is not
    swallowed by the lookup, nothing is created or updated, and the
    session is left as it was. *)
Theorem ambiguous_lookup_propagates
    (defaults : option Kwargs) (commit_flag : bool) (kw : Kwargs) (s : Session) :
  sess_lookup_fault s = None ->
  (1 < List.length (matching_rows m kw (sess_rows s)))%nat ->
  exists e,
    exn_class e = MultipleResultsFound
    /\ get_or_create mgr defaults commit_flag kw s = Raise e s
    /\ update_or_create mgr defaults commit_flag kw s = Raise e s.
Proof.
  intros Hf Hlen. unfold get_or_create, update_or_create, bind.
  rewrite (maybe_get_by_bound mgr m bound kw s Hf).
  destruct (matching_rows m kw (sess_rows s)) as [| r [| r' rows']];
    cbn in Hlen; try lia.
  eexists (MkExn MultipleResultsFound _). repeat split.
Qed.

End BoundManagerMore.

Lemma get_or_create_existing_witness :
  get_or_create UserModelManager (Some name_C) true email_b session_b
  = Ok (0%nat, false) session_b.
Proof.
  apply (get_or_create_existing UserModelManager User eq_refl (Some name_C) true
           email_b session_b
           (MkRow 0%nat User (<["id" := VInt 1]> (name_B ∪ email_b))));
    vm_compute; reflexivity.
Defined.

Lemma ambiguous_lookup_propagates_witness :
  exists e,
    exn_class e = MultipleResultsFound
    /\ get_or_create UserModelManager None false email_b session_b_twice
       = Raise e session_b_twice
    /\ update_or_create UserModelManager None false email_b session_b_twice
       = Raise e session_b_twice.
Proof.
  apply (ambiguous_lookup_propagates UserModelManager User eq_refl None false
           email_b session_b_twice);
    [reflexivity | vm_compute; lia].
Defined.

(** ** [update] and [save] *)

Lemma add_state_idem i s : add_state i (add_state i s) = add_state i s.
Proof.
  unfold add_state at 2 3. destruct (tracked s i) eqn:Ht.
  - unfold add_state. rewrite Ht. reflexivity.
  - unfold add_state, tracked. cbn.
    rewrite (bool_decide_eq_true_2 (i ∈ sess_new s ++ [i])) by set_solver.
    reflexivity.
Qed.

Lemma add_state_tracked i s : tracked s i = true -> add_state i s = s.
Proof. intros Ht. unfold add_state. rewrite Ht. reflexivity. Qed.

Lemma add_state_pending_durable i s :
  sess_durable (add_state i s) = sess_durable s /\ sess_rows (add_state i s) = sess_rows s.
Proof. autorewrite with session. split; reflexivity. Qed.

(** X4: [update] assigns the given fields to the instance, keeps its
    other attributes and returns the same instance.  Without the commit
    flag the rows of the store and the durable rows stay as they were;
    with it, the row of an instance that has one is durable with the new
    values laid over the old. *)
Theorem update_assigns_and_saves
    (i : ObjId) (o : Obj) (commit_flag : bool) (kw : Kwargs) (s : Session) :
  sess_heap s !! i = Some o ->
  exists s2,
    update i commit_flag kw s = Ok i s2
    /\ (forall k v, kw !! k = Some v -> getattr s2 i k = Some v)
    /\ (forall k v, kw !! k = None -> getattr s i k = Some v -> getattr s2 i k = Some v)
    /\ (commit_flag = false ->
        sess_rows s2 = sess_rows s /\ sess_durable s2 = sess_durable s)
    /\ (commit_flag = true ->
        forall r, In r (sess_rows s) -> row_obj r = i ->
                  In (MkRow i (row_model r) (kw ∪ obj_attrs o)) (sess_durable s2)).
Proof.
  intros Hi.
  set (s1 := set_heap (<[i := MkObj (obj_model o) (kw ∪ obj_attrs o)]> (sess_heap s)) s).
  set (s1' := add_state i s1).
  assert (Hi1 : sess_heap s1' !! i = Some (MkObj (obj_model o) (kw ∪ obj_attrs o))).
  { subst s1' s1. autorewrite with session. cbn.
    apply list_lookup_insert_eq. eapply lookup_lt_Some; exact Hi. }
  assert (Hup : update i commit_flag kw s
                = Ok i (if commit_flag then commit_state s1' else s1')).
  { unfold update, setattrs, save, session_add, bind, ret.
    rewrite (setattrs_state i o kw s Hi). fold s1 s1'.
    destruct commit_flag; reflexivity. }
  rewrite Hup. eexists. split; [reflexivity |].
  assert (Hattrs : exists attrs,
             sess_heap (if commit_flag then commit_state s1' else s1') !! i
             = Some (MkObj (obj_model o) attrs)
             /\ kw ∪ obj_attrs o ⊆ attrs).
  { destruct commit_flag.
    - destruct (flush_heap_grows _ _ _ Hi1) as (attrs & Ha & Hsub). eauto.
    - exists (kw ∪ obj_attrs o). split; [exact Hi1 | reflexivity]. }
  destruct Hattrs as (attrs & Ha & Hsub).
  split; [| split; [| split]].
  - intros k v Hk. eapply getattr_heap; [exact Ha |].
    eapply lookup_weaken; [| exact Hsub]. apply lookup_union_Some_l. exact Hk.
  - intros k v Hk Hold. eapply getattr_heap; [exact Ha |].
    eapply lookup_weaken; [| exact Hsub].
    rewrite lookup_union_r by exact Hk.
    unfold getattr in Hold. rewrite Hi in Hold. exact Hold.
  - intros ->. subst s1' s1. autorewrite with session. split; reflexivity.
  - intros -> r Hr Hri.
    change (sess_durable (commit_state s1')) with (sess_rows (flush s1')).
    destruct (flush_rows_prefix s1') as (extra & ->).
    apply in_or_app. left.
    replace (MkRow i (row_model r) (kw ∪ obj_attrs o))
      with (flush_row (sess_heap s1') r).
    + apply in_map. subst s1' s1. autorewrite with session. exact Hr.
    + unfold flush_row. rewrite Hri, Hi1. reflexivity.
Qed.

Lemma update_assigns_and_saves_witness :
  exists s2,
    update 0%nat true name_C session_b = Ok 0%nat s2
    /\ getattr s2 0%nat "name" = Some (VStr "C")
    /\ getattr s2 0%nat "email" = Some (VStr "b@x.com")
    /\ In (MkRow 0%nat User (name_C ∪ (<["id" := VInt 1]> (name_B ∪ email_b))))
          (sess_durable s2).
Proof.
  destruct (update_assigns_and_saves 0%nat
              (MkObj User (<["id" := VInt 1]> (name_B ∪ email_b))) true name_C session_b)
    as (s2 & Hu & Hset & Hkeep & _ & Hdur); [vm_compute; reflexivity |].
  exists s2. split; [exact Hu |].
  split; [apply Hset; reflexivity |].
  split; [apply Hkeep; vm_compute; reflexivity |].
  apply (Hdur eq_refl (MkRow 0%nat User (<["id" := VInt 1]> (name_B ∪ email_b))));
    [vm_compute; left; reflexivity | reflexivity].
Defined.

(** X5: [save] without the commit flag on an instance that the session
    already tracks changes nothing, so saving an instance a second time
    is the same as saving it once: the instance is not queued twice. *)
Theorem save_twice_is_save_once (i : ObjId) (commit_flag : bool) (s : Session) :
  save i commit_flag (final_session (save i false s)) = save i commit_flag s
  /\ (tracked s i = true -> save i false s = Ok i s).
Proof.
  split.
  - unfold save, session_add, bind, ret. cbn. rewrite add_state_idem. reflexivity.
  - intros Ht. unfold save, session_add, bind, ret. rewrite (add_state_tracked _ _ Ht).
    reflexivity.
Qed.

Lemma save_twice_is_save_once_witness :
  save 0%nat true (final_session (save 0%nat false session_b)) = save 0%nat true session_b
  /\ save 0%nat false session_b = Ok 0%nat session_b.
Proof.
  split.
  - exact (proj1 (save_twice_is_save_once 0%nat true session_b)).
  - apply (proj2 (save_twice_is_save_once 0%nat false session_b)).
    vm_compute. reflexivity.
Defined.

Section BoundManagerUpdate.

Variable mgr : Manager.
Variable m : Model.
Hypothesis bound : mgr_model mgr = Some m.



(** ** [all] *)

Lemma all_bound s :
  all mgr s =
    match sess_lookup_fault s with
    | Some e => Raise e (autoflush_now s)
    | None => Ok (List.map row_obj (matching_rows m ∅ (visible_rows s))) (autoflush_now s)
    end.
Proof.
  unfold all, select, self_model, bind, ret. rewrite bound.
  unfold session_execute. cbn. rewrite autoflush_now_fault.
  destruct (sess_lookup_fault s); reflexivity.
Qed.

Lemma row_matches_empty (r : Row) : row_matches m ∅ r = bool_decide (row_model r = m).
Proof.
  unfold row_matches, cols_match.
  rewrite (bool_decide_eq_true_2 (map_Forall _ (∅ : Kwargs))) by apply map_Forall_empty.
  apply andb_true_r.
Qed.

Lemma matching_rows_weaken (kw : Kwargs) (rows : list Row) r :
  In r (matching_rows m kw rows) -> In r (matching_rows m ∅ rows).
Proof.
  unfold matching_rows. rewrite !filter_In. intros [Hr Hm]. split; [exact Hr |].
  rewrite row_matches_empty. unfold row_matches in Hm.
  apply andb_true_iff in Hm as [Hm _]. exact Hm.
Qed.

(** X7: on a store that answers the query, [all] returns the instances
    of exactly the rows of the bound entity type that a query observes,
    rows of other entity types being left out, and whatever instance
    [get_by] returns for some filter on the same session is among them. *)
Theorem all_lists_the_bound_model (s : Session) :
  sess_lookup_fault s = None ->
  exists l,
    all mgr s = Ok l (autoflush_now s)
    /\ (forall i, In i l <->
                  exists r, In r (visible_rows s) /\ row_model r = m /\ row_obj r = i)
    /\ (forall (kw : Kwargs) i s', get_by mgr kw s = Ok (Some i) s' -> In i l).
Proof.
  intros Hf. rewrite all_bound, Hf. eexists. split; [reflexivity |]. split.
  - intros i. rewrite in_map_iff. split.
    + intros (r & Hri & Hr). unfold matching_rows in Hr. apply filter_In in Hr as [Hr Hm].
      rewrite row_matches_empty in Hm. apply bool_decide_eq_true in Hm. eauto.
    + intros (r & Hr & Hm & Hri). exists r. split; [exact Hri |].
      unfold matching_rows. apply filter_In. split; [exact Hr |].
      rewrite row_matches_empty. apply bool_decide_eq_true. exact Hm.
  - intros kw i s' Hget. rewrite (get_by_bound mgr m bound), Hf in Hget.
    destruct (matching_rows m kw (visible_rows s)) as [| r [| r' rows']] eqn:Hrows;
      cbn in Hget; try discriminate.
    injection Hget as <- _. apply in_map.
    apply (matching_rows_weaken kw). rewrite Hrows. left. reflexivity.
Qed.

End BoundManagerUpdate.


Lemma all_lists_the_bound_model_witness :
  exists l,
    all UserModelManager session_b = Ok l session_b
    /\ In 0%nat l.
Proof.
  destruct (all_lists_the_bound_model UserModelManager User eq_refl session_b eq_refl)
    as (l & Hall & _ & Hget).
  exists l. split; [exact Hall |].
  apply (Hget email_b 0%nat session_b). vm_compute. reflexivity.
Defined.

(** ** [save_all] and the commit flag *)

Lemma add_state_tracks i s : tracked (add_state i s) i = true.
Proof.
  unfold add_state. destruct (tracked s i) eqn:Ht; [exact Ht |].
  unfold tracked; cbn. rewrite (bool_decide_eq_true_2 (i ∈ sess_new s ++ [i])) by set_solver.
  reflexivity.
Qed.

Lemma add_state_tracked_mono j i s :
  tracked s i = true -> tracked (add_state j s) i = true.
Proof.
  intros Ht. unfold add_state. destruct (tracked s j); [exact Ht |].
  unfold tracked in *; cbn. apply orb_true_iff in Ht as [Ht | Ht].
  - apply bool_decide_eq_true in Ht.
    rewrite (bool_decide_eq_true_2 (i ∈ sess_new s ++ [j])) by set_solver. reflexivity.
  - rewrite Ht. apply orb_true_r.
Qed.

Lemma add_all_frame (l : list ObjId) : forall s,
  let s' := fold_left (fun t i => add_state i t) l s in
  sess_heap s' = sess_heap s
  /\ sess_rows s' = sess_rows s
  /\ sess_durable s' = sess_durable s
  /\ (forall i, tracked s i = true -> tracked s' i = true)
  /\ (forall i, In i l -> tracked s' i = true).
Proof.
  induction l as [| j l IH]; intros s; cbn.
  - repeat split; [auto | intros i []].
  - destruct (IH (add_state j s)) as (Hh & Hr & Hd & Hkeep & Hin). cbn in *.
    autorewrite with session in Hh, Hr, Hd.
    assert (Hmono : forall i, tracked s i = true -> tracked (add_state j s) i = true).
    { intros i Ht. apply add_state_tracked_mono, Ht. }
    repeat split; try assumption.
    + intros i Ht. apply Hkeep, Hmono, Ht.
    + intros i [-> | Hi]; [| apply Hin, Hi].
      apply Hkeep. apply add_state_tracks.
Qed.

(** Flushing gives every pending instance that exists a row. *)
Lemma fold_flush_new_adds (l : list ObjId) : forall t i,
  In i l -> is_Some (sess_heap t !! i) ->
  exists r, In r (sess_rows (fold_left flush_new l t)) /\ row_obj r = i.
Proof.
  induction l as [| j l IH]; intros t i Hin Hsome; [destruct Hin |]. cbn.
  destruct (decide (j = i)) as [-> | Hne].
  - destruct Hsome as [o Ho].
    assert (Hrow : exists r, In r (sess_rows (flush_new t i)) /\ row_obj r = i).
    { unfold flush_new. rewrite Ho.
      destruct (obj_attrs o !! model_pk (obj_model o)); cbn;
        eexists; (split; [apply in_or_app; right; left; reflexivity | reflexivity]). }
    destruct Hrow as (r & Hr & Hri).
    destruct (fold_flush_new_rows_prefix l (flush_new t i)) as (extra & ->).
    exists r. split; [apply in_or_app; left; exact Hr | exact Hri].
  - destruct Hin as [-> | Hin]; [contradiction |].
    apply IH; [exact Hin |].
    destruct Hsome as [o Ho].
    destruct (flush_new_heap_grows t j i o Ho) as (attrs & Ha & _). eauto.
Qed.

Lemma flush_tracked_has_row s i :
  tracked s i = true -> is_Some (sess_heap s !! i) ->
  exists r, In r (sess_rows (flush s)) /\ row_obj r = i.
Proof.
  intros Ht Hsome. unfold tracked in Ht. apply orb_true_iff in Ht as [Ht | Ht];
    apply bool_decide_eq_true in Ht.
  - unfold flush. apply fold_flush_new_adds; [apply list_elem_of_In, Ht | exact Hsome].
  - apply list_elem_of_In, in_map_iff in Ht as (r & Hri & Hr).
    destruct (flush_rows_prefix s) as (extra & ->).
    exists (flush_row (sess_heap s) r). split.
    + apply in_or_app. left. apply in_map. exact Hr.
    + unfold flush_row. destruct (sess_heap s !! row_obj r); exact Hri.
Qed.

(** X8: [save_all] returns the list it was given.  Without the commit
    flag it only queues: every listed instance is tracked afterwards and
    the rows of the store and the durable rows are untouched.  With the
    commit flag nothing is left pending and every listed instance that
    exists has a row among the durable rows. *)
Theorem save_all_tracks_and_commits
    (instances : list ObjId) (commit_flag : bool) (s : Session) :
  exists s',
    save_all instances commit_flag s = Ok instances s'
    /\ (commit_flag = false ->
        sess_rows s' = sess_rows s
        /\ sess_durable s' = sess_durable s
        /\ forall i, In i instances -> tracked s' i = true)
    /\ (commit_flag = true ->
        sess_new s' = []
        /\ sess_durable s' = sess_rows s'
        /\ forall i, In i instances -> is_Some (sess_heap s !! i) ->
                     exists r, In r (sess_durable s') /\ row_obj r = i).
Proof.
  set (s1 := fold_left (fun t i => add_state i t) instances s).
  destruct (add_all_frame instances s) as (Hh & Hr & Hd & _ & Hin). fold s1 in Hh, Hr, Hd, Hin.
  exists (if commit_flag then commit_state s1 else s1). split; [| split].
  - unfold save_all, session_add_all, bind, ret. fold s1. destruct commit_flag; reflexivity.
  - intros ->. auto.
  - intros ->. split; [apply flush_pending |]. split; [reflexivity |].
    intros i Hi Hsome. change (sess_durable (commit_state s1)) with (sess_rows (flush s1)).
    apply flush_tracked_has_row; [apply Hin, Hi | rewrite Hh; exact Hsome].
Qed.

(** X9: a [no_autoflush] scope inside another one is harmless: the two
    scopes together behave as a single one, and the flag the outer scope
    found comes back at the end. *)
Theorem no_autoflush_nested {A : Type} (body : M A) (s : Session) :
  no_autoflush (no_autoflush body) s = no_autoflush body s.
Proof.
  unfold no_autoflush. cbn.
  replace (set_autoflush false (set_autoflush false s)) with (set_autoflush false s)
    by reflexivity.
  destruct (body (set_autoflush false s)) as [a s' | e s']; reflexivity.
Qed.


(** * Further properties of the class binding *)







(** * Properties of the table names *)

Lemma upper_not_lower_digit c : is_upper c = true -> is_lower c || is_digit c = false.
Proof. destruct c as [[] [] [] [] [] [] [] []]; vm_compute; congruence. Qed.

Lemma lower_char_not_upper c : is_upper (lower_char c) = false.
Proof. destruct c as [[] [] [] [] [] [] [] []]; vm_compute; reflexivity. Qed.

Lemma lower_char_underscore c :
  Ascii.eqb (lower_char c) "_"%char = Ascii.eqb c "_"%char.
Proof. destruct c as [[] [] [] [] [] [] [] []]; vm_compute; reflexivity. Qed.

Lemma lower_char_fixed c : is_upper c = false -> lower_char c = c.
Proof. unfold lower_char. intros ->. reflexivity. Qed.

Lemma underscore_classes :
  is_upper "_"%char = false /\ is_lower "_"%char = false /\ is_digit "_"%char = false.
Proof. repeat split. Qed.

Lemma str_lower_no_upper s : has_upper (str_lower s) = false.
Proof.
  induction s as [| c s IH]; cbn; [reflexivity |].
  rewrite lower_char_not_upper, IH. reflexivity.
Qed.

Lemma str_lower_app s t :
  str_lower (String.append s t) = String.append (str_lower s) (str_lower t).
Proof. induction s as [| c s IH]; simpl; [reflexivity | rewrite IH; reflexivity]. Qed.

Lemma erase_str_lower s : erase_underscores (str_lower s) = str_lower (erase_underscores s).
Proof.
  induction s as [| c s IH]; cbn; [reflexivity |].
  rewrite lower_char_underscore. destruct (Ascii.eqb c "_"%char); cbn; rewrite IH; reflexivity.
Qed.

(** Induction on strings that may step over two or three characters. *)
Lemma string_length_ind (P : string -> Prop) :
  (forall s, (forall t, (String.length t < String.length s)%nat -> P t) -> P s) ->
  forall s, P s.
Proof.
  intros Hstep s.
  assert (H : forall n t, (String.length t < n)%nat -> P t).
  { induction n as [| n IH]; intros t Hlt; [lia |].
    apply Hstep. intros u Hu. apply IH. lia. }
  apply (H (S (String.length s))). lia.
Qed.

Lemma sub_camel_cons c1 c2 rest :
  sub_camel (String c1 (String c2 rest))
  = if (is_lower c1 || is_digit c1) && is_upper c2
    then String c1 (String "_"%char (String c2 (sub_camel rest)))
    else String c1 (sub_camel (String c2 rest)).
Proof. reflexivity. Qed.

Lemma sub_acronym_cons c1 c2 c3 rest :
  sub_acronym (String c1 (String c2 (String c3 rest)))
  = if is_upper c1 && is_upper c2 && is_lower c3
    then String c1 (String "_"%char (String c2 (String c3 (sub_acronym rest))))
    else String c1 (sub_acronym (String c2 (String c3 rest))).
Proof. reflexivity. Qed.

Lemma erase_sub_camel s : erase_underscores (sub_camel s) = erase_underscores s.
Proof.
  induction s as [s IH] using string_length_ind.
  destruct s as [| c1 [| c2 rest]]; [reflexivity | reflexivity |].
  rewrite sub_camel_cons.
  destruct ((is_lower c1 || is_digit c1) && is_upper c2) eqn:Hm.
  - cbn [erase_underscores]. rewrite (IH rest) by (cbn; lia).
    replace (Ascii.eqb "_" "_")%char with true by reflexivity. reflexivity.
  - cbn [erase_underscores]. rewrite (IH (String c2 rest)) by (cbn; lia). reflexivity.
Qed.

Lemma erase_sub_acronym s : erase_underscores (sub_acronym s) = erase_underscores s.
Proof.
  induction s as [s IH] using string_length_ind.
  destruct s as [| c1 [| c2 [| c3 rest]]]; [reflexivity | reflexivity | reflexivity |].
  rewrite sub_acronym_cons.
  destruct (is_upper c1 && is_upper c2 && is_lower c3) eqn:Hm.
  - cbn [erase_underscores]. rewrite (IH rest) by (cbn; lia).
    replace (Ascii.eqb "_" "_")%char with true by reflexivity. reflexivity.
  - cbn [erase_underscores]. rewrite (IH (String c2 (String c3 rest))) by (cbn; lia).
    reflexivity.
Qed.

Lemma sub_camel_no_upper s : has_upper s = false -> sub_camel s = s.
Proof.
  induction s as [| c1 s IH]; [reflexivity |].
  cbn [has_upper]. intros H. apply orb_false_iff in H as [H1 H].
  destruct s as [| c2 rest]; [reflexivity |].
  rewrite sub_camel_cons. pose proof H as H'. cbn [has_upper] in H'.
  apply orb_false_iff in H' as [H2 _]. rewrite H2, andb_false_r.
  rewrite (IH H). reflexivity.
Qed.

Lemma sub_acronym_no_upper s : has_upper s = false -> sub_acronym s = s.
Proof.
  induction s as [| c1 s IH]; [reflexivity |].
  cbn [has_upper]. intros H. apply orb_false_iff in H as [H1 H].
  destruct s as [| c2 [| c3 rest]]; [reflexivity | reflexivity |].
  rewrite sub_acronym_cons, H1. cbn [andb]. rewrite (IH H). reflexivity.
Qed.

Lemma str_lower_fixed s : has_upper s = false -> str_lower s = s.
Proof.
  induction s as [| c s IH]; [reflexivity |].
  cbn. intros H. apply orb_false_iff in H as [H1 H].
  rewrite (lower_char_fixed _ H1), (IH H). reflexivity.
Qed.

Lemma tablename_fixed s : has_upper s = false -> tablename s = s.
Proof.
  intros H. unfold tablename.
  rewrite (sub_camel_no_upper _ H), (sub_acronym_no_upper _ H). apply str_lower_fixed, H.
Qed.

(** X12: the table name derived from a class name never has a capital
    letter, whatever the class name. *)
Theorem tablename_has_no_capital (class_name : string) :
  has_upper (tablename class_name) = false.
Proof. unfold tablename. apply str_lower_no_upper. Qed.

(** X13: the conversion only inserts underscores and lowers capitals:
    without its underscores, the table name is the class name in small
    letters without its underscores.  So two class names with the same
    table name differ at most in case and underscores. *)
Theorem tablename_erases_to_lowered_name (class_name : string) :
  erase_underscores (tablename class_name)
  = erase_underscores (str_lower class_name).
Proof.
  unfold tablename.
  rewrite !erase_str_lower, erase_sub_acronym, erase_sub_camel. reflexivity.
Qed.

Lemma lower_char_ascii c :
  (N_of_ascii c <? 128)%N = true -> (N_of_ascii (lower_char c) <? 128)%N = true.
Proof. destruct c as [[] [] [] [] [] [] [] []]; vm_compute; congruence. Qed.

Lemma str_lower_ascii s : is_ascii s = true -> is_ascii (str_lower s) = true.
Proof.
  induction s as [| c s IH]; [reflexivity |]. cbn [is_ascii str_lower].
  intros H. apply andb_true_iff in H as [Hc H].
  rewrite (lower_char_ascii _ Hc), (IH H). reflexivity.
Qed.

Lemma sub_camel_ascii s : is_ascii s = true -> is_ascii (sub_camel s) = true.
Proof.
  induction s as [s IH] using string_length_ind.
  destruct s as [| c1 [| c2 rest]]; [reflexivity | intros H; exact H |].
  rewrite sub_camel_cons. cbn [is_ascii]. intros H.
  apply andb_true_iff in H as [H1 H]. apply andb_true_iff in H as [H2 H].
  destruct ((is_lower c1 || is_digit c1) && is_upper c2).
  - cbn [is_ascii]. rewrite H1, H2, (IH rest) by (cbn; lia || exact H). reflexivity.
  - cbn [is_ascii]. rewrite H1. cbn [andb]. apply IH; [cbn; lia |].
    cbn [is_ascii]. rewrite H2, H. reflexivity.
Qed.

Lemma sub_acronym_ascii s : is_ascii s = true -> is_ascii (sub_acronym s) = true.
Proof.
  induction s as [s IH] using string_length_ind.
  destruct s as [| c1 [| c2 [| c3 rest]]];
    [reflexivity | intros H; exact H | intros H; exact H |].
  rewrite sub_acronym_cons. cbn [is_ascii]. intros H.
  apply andb_true_iff in H as [H1 H]. apply andb_true_iff in H as [H2 H].
  apply andb_true_iff in H as [H3 H].
  destruct (is_upper c1 && is_upper c2 && is_lower c3).
  - cbn [is_ascii]. rewrite H1, H2, H3, (IH rest) by (cbn; lia || exact H). reflexivity.
  - cbn [is_ascii]. rewrite H1. cbn [andb]. apply IH; [cbn; lia |].
    cbn [is_ascii]. rewrite H2, H3, H. reflexivity.
Qed.

(** X14: for a name made of ASCII characters, the table name is made of
    ASCII characters too and converts to itself: the conversion is
    idempotent.  Such a name without capitals is its own table name. *)
Theorem tablename_idempotent (class_name : string) :
  is_ascii class_name = true ->
  is_ascii (tablename class_name) = true
  /\ tablename (tablename class_name) = tablename class_name
  /\ (has_upper class_name = false -> tablename class_name = class_name).
Proof.
  intros Hascii. split; [| split; [| apply tablename_fixed]].
  - unfold tablename. apply str_lower_ascii, sub_acronym_ascii, sub_camel_ascii, Hascii.
  - apply tablename_fixed. unfold tablename. apply str_lower_no_upper.
Qed.

Lemma tablename_idempotent_witness :
  tablename (tablename "AccessToken") = tablename "AccessToken"
  /\ tablename "access_token" = "access_token".
Proof.
  split.
  - exact (proj1 (proj2 (tablename_idempotent "AccessToken" eq_refl))).
  - apply (proj2 (proj2 (tablename_idempotent "access_token" eq_refl))). reflexivity.
Defined.

Lemma lower_digit_not_upper c : is_lower c || is_digit c = true -> is_upper c = false.
Proof. destruct c as [[] [] [] [] [] [] [] []]; vm_compute; congruence. Qed.

Lemma sub_camel_upper c rest :
  is_upper c = true -> sub_camel (String c rest) = String c (sub_camel rest).
Proof.
  intros Hc. destruct rest as [| c' rest]; [reflexivity |].
  rewrite sub_camel_cons, (upper_not_lower_digit _ Hc). reflexivity.
Qed.

Lemma append_empty (s : string) : String.append EmptyString s = s.
Proof. reflexivity. Qed.

Lemma append_cons c (s t : string) :
  String.append (String c s) t = String c (String.append s t).
Proof. reflexivity. Qed.

Lemma sub_camel_boundary w c1 c2 rest :
  is_lower c1 || is_digit c1 = true ->
  is_upper c2 = true ->
  sub_camel (String.append w (String c1 (String c2 rest)))
  = String.append (sub_camel (String.append w (String c1 EmptyString)))
      (String "_"%char (sub_camel (String c2 rest))).
Proof.
  intros H1 H2. induction w as [w IH] using string_length_ind.
  destruct w as [| a [| b w]].
  - rewrite !append_empty.
    rewrite (sub_camel_cons c1 c2 rest), H1, H2. cbn [andb].
    rewrite (sub_camel_upper _ _ H2). reflexivity.
  - rewrite !append_cons, !append_empty.
    rewrite (sub_camel_cons a c1 (String c2 rest)), (sub_camel_cons a c1 EmptyString).
    rewrite (lower_digit_not_upper _ H1), andb_false_r.
    specialize (IH EmptyString). rewrite !append_empty in IH.
    rewrite IH by (cbn; lia). reflexivity.
  - rewrite !append_cons. rewrite !(sub_camel_cons a b).
    destruct ((is_lower a || is_digit a) && is_upper b).
    + rewrite (IH w) by (cbn; lia). reflexivity.
    + specialize (IH (String b w)). rewrite !append_cons in IH.
      rewrite IH by (cbn; lia). reflexivity.
Qed.

Lemma sub_acronym_short s : (String.length s < 3)%nat -> sub_acronym s = s.
Proof. destruct s as [| c1 [| c2 [| c3 rest]]]; cbn; [reflexivity.. | lia]. Qed.

(** An underscore is a barrier to the second substitution. *)
Lemma sub_acronym_underscore a b :
  sub_acronym (String.append a (String "_"%char b))
  = String.append (sub_acronym a) (String "_"%char (sub_acronym b)).
Proof.
  induction a as [a IH] using string_length_ind.
  destruct a as [| c1 [| c2 [| c3 rest]]].
  - rewrite !append_empty.
    destruct b as [| b1 [| b2 r]]; [reflexivity | reflexivity |].
    rewrite (sub_acronym_cons "_"%char b1 b2 r). reflexivity.
  - rewrite !append_cons, !append_empty.
    destruct b as [| b1 r]; [reflexivity |].
    rewrite (sub_acronym_cons c1 "_"%char b1 r).
    replace (is_upper "_"%char) with false by reflexivity.
    rewrite andb_false_r. cbn [andb].
    specialize (IH EmptyString). rewrite !append_empty in IH.
    rewrite IH by (cbn; lia). reflexivity.
  - rewrite !append_cons, !append_empty.
    rewrite (sub_acronym_cons c1 c2 "_"%char b).
    replace (is_lower "_"%char) with false by reflexivity. rewrite andb_false_r.
    specialize (IH (String c2 EmptyString)). rewrite !append_cons, !append_empty in IH.
    rewrite IH by (cbn; lia). reflexivity.
  - rewrite !append_cons. rewrite !(sub_acronym_cons c1 c2 c3).
    destruct (is_upper c1 && is_upper c2 && is_lower c3).
    + rewrite (IH rest) by (cbn; lia). reflexivity.
    + specialize (IH (String c2 (String c3 rest))). rewrite !append_cons in IH.
      rewrite IH by (cbn; lia). reflexivity.
Qed.

(** X15: where a small letter or digit is followed by a capital, the
    table name is cut in two: it is the table name of what comes up to
    the small letter, an underscore, and the table name of what starts at
    the capital. *)
Theorem tablename_word_boundary (w : string) (c1 c2 : ascii) (rest : string) :
  is_lower c1 || is_digit c1 = true ->
  is_upper c2 = true ->
  tablename (String.append w (String c1 (String c2 rest)))
  = String.append (tablename (String.append w (String c1 EmptyString)))
      (String "_"%char (tablename (String c2 rest))).
Proof.
  intros H1 H2. unfold tablename.
  rewrite (sub_camel_boundary w c1 c2 rest H1 H2), sub_acronym_underscore, str_lower_app.
  reflexivity.
Qed.

Lemma tablename_word_boundary_witness :
  tablename "AccessToken"
  = String.append (tablename "Access") (String "_"%char (tablename "Token")).
Proof.
  apply (tablename_word_boundary "Acces" "s"%char "T"%char "oken"); reflexivity.
Defined.

(** * Properties of [require_user] *)

Lemma filter_not_user_count (sig : list Param) :
  List.filter annotated_user (List.filter (fun p => negb (annotated_user p)) sig) = [].
Proof.
  induction sig as [| p sig IH]; cbn; [reflexivity |].
  destruct (annotated_user p) eqn:Hp; cbn; [exact IH |].
  rewrite Hp. exact IH.
Qed.

Lemma filter_not_user_idem (sig : list Param) :
  List.filter (fun p => negb (annotated_user p))
    (List.filter (fun p => negb (annotated_user p)) sig)
  = List.filter (fun p => negb (annotated_user p)) sig.
Proof.
  induction sig as [| p sig IH]; cbn; [reflexivity |].
  destruct (annotated_user p) eqn:Hp; cbn; [exact IH |].
  rewrite Hp. cbn. rewrite IH. reflexivity.
Qed.

Lemma validate_parameters_app l1 l2 st :
  validate_parameters (l1 ++ l2) st =
    match validate_parameters l1 st with
    | Raised e => Raised e
    | Returned st' => validate_parameters l2 st'
    end.
Proof.
  revert st. induction l1 as [| p l1 IH]; intros st; cbn; [reflexivity |].
  destruct (validate_step st p); [apply IH | reflexivity].
Qed.

Lemma validate_step_value_error st p e :
  validate_step st p = Raised e -> exn_class e = OtherException "ValueError".
Proof.
  unfold validate_step.
  repeat (match goal with |- context [if ?b then _ else _] => destruct b end);
    intros [= <-] || discriminate; reflexivity.
Qed.

Lemma validate_parameters_value_error l st e :
  validate_parameters l st = Raised e -> exn_class e = OtherException "ValueError".
Proof.
  revert st. induction l as [| p l IH]; intros st; cbn; [discriminate |].
  destruct (validate_step st p) eqn:E; [apply IH |].
  intros [= <-]. exact (validate_step_value_error _ _ _ E).
Qed.

(** What a step that passes leaves. *)
Lemma validate_step_returned st p st' :
  validate_step st p = Returned st' ->
  (kind_rank (st_top_kind st) <= kind_rank (param_kind p))%nat
  /\ st_top_kind st' = param_kind p
  /\ st_names st' = param_name p :: st_names st
  /\ ~ param_name p ∈ st_names st
  /\ st_kind_defaults st' =
       (if positional (param_kind p) && negb (bool_decide (param_default p = NoDefault))
        then true
        else if (kind_rank (st_top_kind st) <? kind_rank (param_kind p))%nat then false
             else st_kind_defaults st)
  /\ (positional (param_kind p) = true -> param_default p = NoDefault ->
       kind_rank (st_top_kind st) = kind_rank (param_kind p) ->
       st_kind_defaults st = false).
Proof.
  unfold validate_step.
  destruct (kind_rank (param_kind p) <? kind_rank (st_top_kind st))%nat eqn:Hlt;
    [discriminate |].
  apply Nat.ltb_ge in Hlt.
  destruct (positional (param_kind p) && bool_decide (param_default p = NoDefault)
            && (if (kind_rank (st_top_kind st) <? kind_rank (param_kind p))%nat
                then false else st_kind_defaults st)) eqn:Hdef; [discriminate |].
  destruct (bool_decide (param_name p ∈ st_names st)) eqn:Hname; [discriminate |].
  intros [= <-]. cbn. apply bool_decide_eq_false in Hname.
  repeat split; try assumption.
  intros Hpos Hno Heq. rewrite Hpos, (bool_decide_eq_true_2 _ Hno) in Hdef.
  rewrite Heq, Nat.ltb_irrefl in Hdef. exact Hdef.
Qed.

(** The state of a pass over a sublist, against that of the pass over
    the whole list. *)
Definition sub_state (sub full : SigState) : Prop :=
  (kind_rank (st_top_kind sub) <= kind_rank (st_top_kind full))%nat
  /\ (st_kind_defaults sub = true ->
      kind_rank (st_top_kind full) = kind_rank (st_top_kind sub) ->
      st_kind_defaults full = true)
  /\ (forall n, n ∈ st_names sub -> n ∈ st_names full).

Lemma validate_step_skip sub full p full' :
  sub_state sub full -> validate_step full p = Returned full' -> sub_state sub full'.
Proof.
  intros (Hk & Hd & Hn) Hstep.
  destruct (validate_step_returned _ _ _ Hstep) as (Hle & Htop & Hnames & _ & Hdef & Hno).
  unfold sub_state. rewrite Htop, Hnames, Hdef. split; [lia |]. split.
  - intros Hsub Heq.
    destruct (positional (param_kind p) && negb (bool_decide (param_default p = NoDefault)))
      eqn:Hp; [reflexivity |].
    assert (Hsame : kind_rank (st_top_kind full) = kind_rank (param_kind p)) by lia.
    rewrite Hsame, Nat.ltb_irrefl. apply Hd; [exact Hsub | lia].
  - intros n Hin. apply elem_of_cons. right. apply Hn, Hin.
Qed.

Lemma validate_step_keep sub full p full' :
  sub_state sub full -> validate_step full p = Returned full' ->
  exists sub', validate_step sub p = Returned sub' /\ sub_state sub' full'.
Proof.
  intros (Hk & Hd & Hn) Hstep.
  destruct (validate_step_returned _ _ _ Hstep) as (Hle & Htop & Hnames & Hfresh & Hdef & Hno).
  unfold validate_step.
  destruct (kind_rank (param_kind p) <? kind_rank (st_top_kind sub))%nat eqn:Hlt;
    [apply Nat.ltb_lt in Hlt; lia |].
  destruct (positional (param_kind p) && bool_decide (param_default p = NoDefault)
            && (if (kind_rank (st_top_kind sub) <? kind_rank (param_kind p))%nat
                then false else st_kind_defaults sub)) eqn:Hbad.
  { exfalso. apply andb_true_iff in Hbad as [Hbad Hsubd].
    apply andb_true_iff in Hbad as [Hpos Hnd]. apply bool_decide_eq_true in Hnd.
    destruct (kind_rank (st_top_kind sub) <? kind_rank (param_kind p))%nat eqn:Hup;
      [discriminate |].
    apply Nat.ltb_ge in Hup. apply Nat.ltb_ge in Hlt.
    assert (Hsame : kind_rank (st_top_kind full) = kind_rank (param_kind p)) by lia.
    assert (Hfd : st_kind_defaults full = true) by (apply Hd; [exact Hsubd | lia]).
    rewrite (Hno Hpos Hnd Hsame) in Hfd. discriminate. }
  destruct (bool_decide (param_name p ∈ st_names sub)) eqn:Hname.
  { exfalso. apply bool_decide_eq_true in Hname. apply Hfresh, Hn, Hname. }
  eexists. split; [reflexivity |].
  unfold sub_state. cbn [st_top_kind st_kind_defaults st_names].
  rewrite Htop, Hnames, Hdef. split; [lia |]. split.
  - intros Hsub _. revert Hsub.
    destruct (positional (param_kind p) && negb (bool_decide (param_default p = NoDefault)))
      eqn:Hp; [intros _; reflexivity |].
    destruct (kind_rank (st_top_kind sub) <? kind_rank (param_kind p))%nat eqn:Hup;
      [discriminate |].
    intros Hsub. apply Nat.ltb_ge in Hup. apply Nat.ltb_ge in Hlt.
    assert (Hsame : kind_rank (st_top_kind full) = kind_rank (param_kind p)) by lia.
    rewrite Hsame, Nat.ltb_irrefl. apply Hd; [exact Hsub | lia].
  - intros n Hin. apply elem_of_cons in Hin as [-> | Hin]; apply elem_of_cons;
      [left; reflexivity | right; apply Hn, Hin].
Qed.

(** A sublist of parameters that pass passes too. *)
Lemma validate_parameters_filter (f : Param -> bool) l sub full full' :
  sub_state sub full ->
  validate_parameters l full = Returned full' ->
  exists sub', validate_parameters (List.filter f l) sub = Returned sub'
               /\ sub_state sub' full'.
Proof.
  revert sub full. induction l as [| p l IH]; intros sub full Hsub; cbn.
  - intros [= <-]. eauto.
  - destruct (validate_step full p) as [full1 |] eqn:Hstep; [| discriminate].
    intros Hrest. destruct (f p).
    + destruct (validate_step_keep _ _ _ _ Hsub Hstep) as (sub1 & Hs1 & Hsub1).
      cbn. rewrite Hs1. exact (IH _ _ Hsub1 Hrest).
    + exact (IH _ _ (validate_step_skip _ _ _ _ Hsub Hstep) Hrest).
Qed.

(** After a pass, the names seen are those of the parameters, and the
    top kind is [**kwargs] exactly when one of them is. *)
Lemma validate_parameters_state l st st' :
  validate_parameters l st = Returned st' ->
  (forall n, n ∈ st_names st' <-> n ∈ st_names st \/ In n (List.map param_name l))
  /\ (st_top_kind st' = VarKeyword <->
      st_top_kind st = VarKeyword
      \/ existsb (fun p => bool_decide (param_kind p = VarKeyword)) l = true).
Proof.
  revert st. induction l as [| p l IH]; intros st; cbn.
  - intros [= <-]. split.
    + intros n. split; [auto |]. intros [H | []]. exact H.
    + split; [auto |]. intros [H | H]; [exact H | discriminate].
  - destruct (validate_step st p) as [st1 |] eqn:Hstep; [| discriminate].
    intros Hrest. destruct (IH _ Hrest) as [Hn Hk].
    destruct (validate_step_returned _ _ _ Hstep) as (Hle & Htop & Hnames & _).
    split.
    + intros n. rewrite Hn, Hnames, elem_of_cons. split.
      * intros [[-> | H] | H]; auto.
      * intros [H | [<- | H]]; auto.
    + rewrite Hk, Htop, orb_true_iff, bool_decide_eq_true. split.
      * intros [H | H]; auto.
      * intros [Hst | [H | H]]; auto.
        left. rewrite Hst in Hle. destruct (param_kind p); cbn in Hle; try lia.
        reflexivity.
Qed.

(** X16: for a decorated function, with whatever number of parameters
    annotated with [User], the decoration fails with a [ValueError]
    exactly when one of its other parameters is a [**kwargs] or is named
    [__auth_user]; otherwise the wrapper's signature has the other
    parameters of the function, in order, followed by the keyword-only
    [__auth_user], which is then its only parameter annotated with
    [User] and whose default is the [current_user] dependency built from
    the decorator's flags. *)
Theorem wrapper_signature_has_one_user (is_active is_superuser : bool) (sig : list Param) :
  valid_signature sig = true ->
  let kept := List.filter (fun p => negb (annotated_user p)) sig in
  let auth := auth_user_param is_active is_superuser in
  (if existsb blocks_auth_user kept
   then exists e, wrapper_parameters is_active is_superuser sig = Raised e
                  /\ exn_class e = OtherException "ValueError"
   else wrapper_parameters is_active is_superuser sig = Returned (kept ++ [auth]))
  /\ (forall ps,
        wrapper_parameters is_active is_superuser sig = Returned ps ->
        List.filter annotated_user ps = [auth]
        /\ List.filter (fun p => negb (annotated_user p)) ps = kept
        /\ last ps = Some auth)
  /\ param_default auth = Depends (MkCurrentUser is_active true is_superuser).
Proof.
  intros Hvalid kept auth.
  set (init := MkSigState PositionalOnly false []).
  assert (Hkept : exists st, validate_parameters kept init = Returned st).
  { unfold valid_signature, signature_replace in Hvalid. fold init in Hvalid.
    destruct (validate_parameters sig init) as [full |] eqn:Hfull; [| discriminate].
    assert (Hinit : sub_state init init) by (repeat split; auto).
    destruct (validate_parameters_filter (fun p => negb (annotated_user p))
                sig init init full Hinit Hfull) as (st & Hst & _).
    eauto. }
  destruct Hkept as [st Hst].
  destruct (validate_parameters_state _ _ _ Hst) as [Hnames Htop].
  assert (Hrun : validate_parameters (kept ++ [auth]) init = validate_step st auth).
  { rewrite validate_parameters_app, Hst. cbn. destruct (validate_step st auth); reflexivity. }
  assert (Hblock : existsb blocks_auth_user kept = true <->
                   st_top_kind st = VarKeyword \/ "__auth_user" ∈ st_names st).
  { rewrite Htop, Hnames. cbn [st_top_kind st_names init].
    rewrite existsb_exists. setoid_rewrite in_map_iff. split.
    - intros (p & Hin & Hp). unfold blocks_auth_user in Hp.
      apply orb_true_iff in Hp as [Hp | Hp].
      + left. right. apply existsb_exists. eauto.
      + right. right. apply String.eqb_eq in Hp. eauto.
    - intros [[H | H] | [H | (p & Hp & Hin)]].
      + discriminate.
      + apply existsb_exists in H as (p & Hin & Hp). exists p. split; [exact Hin |].
        unfold blocks_auth_user. rewrite Hp. reflexivity.
      + apply elem_of_nil in H. destruct H.
      + exists p. split; [exact Hin |]. unfold blocks_auth_user.
        rewrite (proj2 (String.eqb_eq _ _) Hp). apply orb_true_r. }
  assert (Hwrap : wrapper_parameters is_active is_superuser sig =
                  match validate_step st auth with
                  | Raised e => Raised e
                  | Returned _ => Returned (kept ++ [auth])
                  end).
  { unfold wrapper_parameters, signature_replace, new_params. fold kept auth init.
    rewrite Hrun. reflexivity. }
  assert (Hstep : match validate_step st auth with
                  | Raised e => st_top_kind st = VarKeyword \/ "__auth_user" ∈ st_names st
                  | Returned _ =>
                      ~ (st_top_kind st = VarKeyword \/ "__auth_user" ∈ st_names st)
                  end).
  { unfold validate_step. cbn [param_kind param_default param_name auth auth_user_param
                              positional andb].
    destruct (kind_rank KeywordOnly <? kind_rank (st_top_kind st))%nat eqn:Hlt.
    - left. apply Nat.ltb_lt in Hlt. destruct (st_top_kind st); cbn in Hlt; try lia.
      reflexivity.
    - apply Nat.ltb_ge in Hlt.
      destruct (bool_decide ("__auth_user" ∈ st_names st)) eqn:Hname.
      + right. apply bool_decide_eq_true in Hname. exact Hname.
      + apply bool_decide_eq_false in Hname. intros [Hk | Hn]; [| tauto].
        rewrite Hk in Hlt. cbn in Hlt. lia. }
  split; [| split].
  - rewrite Hwrap. destruct (validate_step st auth) as [st' | e] eqn:Hv.
    + destruct (existsb blocks_auth_user kept) eqn:Hb; [| reflexivity].
      exfalso. apply Hstep, Hblock. reflexivity.
    + rewrite (proj2 Hblock Hstep). exists e. split; [reflexivity |].
      exact (validate_step_value_error _ _ _ Hv).
  - intros ps. rewrite Hwrap. destruct (validate_step st auth); [| discriminate].
    intros [= <-]. repeat split.
    + rewrite List.filter_app. unfold kept. rewrite filter_not_user_count. reflexivity.
    + rewrite List.filter_app. cbn. rewrite app_nil_r. apply filter_not_user_idem.
    + apply last_snoc.
  - reflexivity.
Qed.

Lemma wrapper_signature_has_one_user_witness :
  wrapper_parameters true false search_sig
  = Returned [MkParam "q" PositionalOrKeyword NoDefault (AnnOther "str");
              MkParam "page" PositionalOrKeyword (DefaultValue "1") (AnnOther "int");
              auth_user_param true false]
  /\ exists e, wrapper_parameters true false audit_sig = Raised e
               /\ exn_class e = OtherException "ValueError".
Proof.
  split.
  - exact (proj1 (wrapper_signature_has_one_user true false search_sig eq_refl)).
  - exact (proj1 (wrapper_signature_has_one_user true false audit_sig eq_refl)).
Defined.


Section WrapperFacts.

Variable V : Type.
Variable py_none : V.



End WrapperFacts.


(** * Properties of the admin authentication backend *)

Section AdminAuthFacts.

Variable check_credentials : string -> string -> option AdminUser.
Variable write_token : AdminUser -> string.
Variable validate_token : string -> AdminResult (option AdminUser * option string).

(** X18: [login] returns [True] exactly when the form has a user name
    and a password that the user manager accepts for a user who is
    active, a superuser and verified; the request's session then holds
    the token written for that user under ["token"], and the rest of the
    session is untouched. *)
Theorem login_grants_exactly_admins (form : gmap string string) (st : AdminState) :
  let result := login check_credentials write_token form st in
  (result.1 = AdminOk true <->
   exists username password user,
     form !! "username" = Some username
     /\ form !! "password" = Some password
     /\ check_credentials username password = Some user
     /\ au_active user = true /\ au_superuser user = true /\ au_verified user = true)
  /\ (forall username password user,
        form !! "username" = Some username ->
        form !! "password" = Some password ->
        check_credentials username password = Some user ->
        result.1 = AdminOk true ->
        req_session result.2 = <["token" := write_token user]> (req_session st)).
Proof.
  cbn zeta. unfold login.
  destruct (form !! "username") as [username |] eqn:Hu.
  2: { split; [split; [discriminate | intros (? & ? & ? & H & _); discriminate] |].
       intros ? ? ? H; discriminate. }
  destruct (form !! "password") as [password |] eqn:Hp.
  2: { split; [split; [discriminate | intros (? & ? & ? & _ & H & _); discriminate] |].
       intros ? ? ? _ H; discriminate. }
  destruct (check_credentials username password) as [user |] eqn:Hc.
  2: { split; [split; [discriminate |] |].
       - intros (u & p & usr & [= <-] & [= <-] & H & _). congruence.
       - intros u p usr [= <-] [= <-] H. congruence. }
  destruct user as [email [] [] []]; cbn; split;
    try (split; [discriminate |
                 intros (u & p & usr & [= <-] & [= <-] & H & Ha & Hs & Hv);
                 rewrite Hc in H; injection H as <-; cbn in *; discriminate]);
    try (intros u p usr _ _ _ H; discriminate H).
  - split; [intros _; eauto 10 |]. reflexivity.
  - intros u p usr [= <-] [= <-] H _. rewrite Hc in H. injection H as <-. reflexivity.
Qed.

(** X19: when [login] refuses, whether it returns [False] or raises, the
    request's session is as before and no token was written.  A user who
    is not active or not a superuser is refused with 403 whether verified
    or not; only an active superuser who is not verified gets 400. *)
Theorem login_refusal_leaves_no_token (form : gmap string string) (st : AdminState) :
  let result := login check_credentials write_token form st in
  (result.1 <> AdminOk true ->
     req_session result.2 = req_session st
     /\ forall user, ~ In (EvWriteToken user) (skipn (List.length (store_log st)) (store_log result.2)))
  /\ (forall username password user,
        form !! "username" = Some username ->
        form !! "password" = Some password ->
        check_credentials username password = Some user ->
        (au_active user && au_superuser user = false ->
           result.1 = AdminRaise (HTTPException 403 "forbidden"))
        /\ (au_active user && au_superuser user = true -> au_verified user = false ->
           result.1 = AdminRaise (HTTPException 400 "LOGIN_USER_NOT_VERIFIED"))).
Proof.
  cbn zeta. unfold login.
  assert (Hskip : forall (l : list StoreEvent) ev user,
             In (EvWriteToken user) (skipn (List.length l) (l ++ [ev])) -> EvWriteToken user = ev).
  { intros l ev user. rewrite skipn_app, skipn_all, Nat.sub_diag. cbn.
    intros [H | []]. symmetry. exact H. }
  assert (Hskip0 : forall (l : list StoreEvent) user,
             ~ In (EvWriteToken user) (skipn (List.length l) l)).
  { intros l user. rewrite skipn_all. intros []. }
  destruct (form !! "username") as [username |] eqn:Hu.
  2: { split; [intros _; split; [reflexivity | apply Hskip0] |]. intros ? ? ? H; discriminate. }
  destruct (form !! "password") as [password |] eqn:Hp.
  2: { split; [intros _; split; [reflexivity | apply Hskip0] |]. intros ? ? ? _ H; discriminate. }
  destruct (check_credentials username password) as [user |] eqn:Hc.
  2: { split.
       - intros _. split; [reflexivity |]. intros user H. apply Hskip in H. discriminate.
       - intros u p usr [= <-] [= <-] H. congruence. }
  split.
  - destruct user as [email [] [] []]; cbn; intros Hne; try contradiction;
      (split; [reflexivity |]); intros usr H; apply Hskip in H; discriminate.
  - intros u p usr [= <-] [= <-] H. rewrite Hc in H. injection H as <-.
    destruct user as [email [] [] []]; cbn; split; intros; try discriminate; reflexivity.
Qed.

(** X20: with no token in the request's session, or an empty one,
    [authenticate] returns [False] and [logout] returns [True] without
    asking the store anything.  Whenever [logout] returns, it returns
    [True] and the session is empty; when the validation of the token
    raises, [logout] raises too and the session is kept. *)
Theorem no_token_no_store_access (st : AdminState) :
  (token_truthy (req_session st !! "token") = false ->
     authenticate validate_token st = (AdminOk false, st)
     /\ logout validate_token st = (AdminOk true, MkAdminState ∅ (store_log st)))
  /\ (forall b st', logout validate_token st = (AdminOk b, st') ->
        b = true /\ req_session st' = ∅)
  /\ (forall e st', logout validate_token st = (AdminRaise e, st') ->
        req_session st' = req_session st).
Proof.
  unfold authenticate, logout, _authenticate_request.
  destruct (req_session st !! "token") as [token |] eqn:Ht; cbn.
  - destruct (bool_decide (token = "")) eqn:He; cbn.
    + repeat split; intros; simplify_eq; reflexivity.
    + destruct (validate_token token) as [[user token'] | e]; cbn.
      * repeat split; intros; simplify_eq; reflexivity.
      * repeat split; intros; simplify_eq; reflexivity.
  - repeat split; intros; simplify_eq; reflexivity.
Qed.

End AdminAuthFacts.

Lemma login_grants_exactly_admins_witness :
  let form : gmap string string :=
    {[ "username" := "admin@example.com"; "password" := "password" ]} in
  let result := login demo_credentials demo_write_token form (MkAdminState ∅ []) in
  result.1 = AdminOk true
  /\ req_session result.2 = {[ "token" := "admin_token" ]}.
Proof.
  intros form result.
  destruct (login_grants_exactly_admins demo_credentials demo_write_token form
              (MkAdminState ∅ [])) as [Hiff Hsession].
  assert (Hok : result.1 = AdminOk true).
  { apply Hiff. exists "admin@example.com", "password", demo_admin. repeat split. }
  split; [exact Hok |].
  apply (Hsession "admin@example.com" "password" demo_admin); reflexivity.
Defined.

Lemma no_token_no_store_access_witness :
  authenticate demo_validate (MkAdminState ∅ []) = (AdminOk false, MkAdminState ∅ [])
  /\ logout demo_validate (MkAdminState {[ "token" := "stale" ]} [])
     = (AdminRaise (HTTPException 401 "Unauthorized"),
        MkAdminState {[ "token" := "stale" ]} [EvValidateToken "stale"]).
Proof.
  split.
  - apply (no_token_no_store_access demo_validate (MkAdminState ∅ [])). reflexivity.
  - vm_compute. reflexivity.
Defined.

(** * Properties of the route listing *)

Lemma append_assoc (s t u : string) :
  String.append (String.append s t) u = String.append s (String.append t u).
Proof. induction s as [| c s IH]; [reflexivity |]. rewrite !append_cons, IH. reflexivity. Qed.

(** Induction on routes that goes into the routes of a mount. *)
Section RouteInduction.

Variable P : Route -> Prop.
Hypothesis api : forall methods path endpoint, P (APIRoute methods path endpoint).
Hypothesis websocket : forall path endpoint, P (WebSocketRoute path endpoint).
Hypothesis plain : forall methods path endpoint, P (PlainRoute methods path endpoint).
Hypothesis mount : forall path routes app_class,
    Forall P routes -> P (Mount path routes app_class).
Hypothesis other : P OtherRoute.

Fixpoint Route_nested_ind (route : Route) : P route :=
  match route with
  | APIRoute methods path endpoint => api methods path endpoint
  | WebSocketRoute path endpoint => websocket path endpoint
  | PlainRoute methods path endpoint => plain methods path endpoint
  | Mount path routes app_class =>
      mount path routes app_class
        ((fix all_routes (l : list Route) : Forall P l :=
            match l with
            | [] => @List.Forall_nil Route P
            | r :: l' => @List.Forall_cons Route P r l' (Route_nested_ind r) (all_routes l')
            end) routes)
  | OtherRoute => other
  end.

End RouteInduction.

Lemma map_flat_map_ext {A B C : Type} (f : B -> C) (g : A -> list B) (h : A -> list C)
    (l : list A) :
  Forall (fun x => h x = List.map f (g x)) l ->
  flat_map h l = List.map f (flat_map g l).
Proof.
  induction 1 as [| x l Hx _ IH]; cbn; [reflexivity |].
  rewrite List.map_app, Hx, IH. reflexivity.
Qed.

Lemma collect_route_prefix (route : Route) : forall p q,
  collect_route (String.append p q) route = List.map (under p) (collect_route q route).
Proof.
  induction route as [methods path endpoint | path endpoint | methods path endpoint
                      | path routes app_class IH |] using Route_nested_ind;
    intros p q; cbn [collect_route]; unfold under; cbn [List.map row_methods row_url row_endpoint];
    rewrite ?append_assoc; try reflexivity.
  destruct routes as [| r routes].
  - destruct app_class; reflexivity.
  - apply map_flat_map_ext.
    eapply Forall_impl; [exact IH |]. intros r' Hr'. cbn beta. apply Hr'.
Qed.

(** X21: listing routes under a longer prefix is listing them under the
    shorter one and putting the rest in front of every URL; methods and
    endpoints do not depend on the prefix.  So the rows of a mount with
    routes are the rows of its routes listed on their own, each with the
    prefix and the mount's path in front of its URL, however deep the
    mounts are nested. *)
Theorem collect_routes_prefix (routes : list Route) (p q : string) :
  collect_routes routes (String.append p q)
  = List.map (under p) (collect_routes routes q)
  /\ forall path r rest app_class,
       collect_routes [Mount path (r :: rest) app_class] p
       = List.map (under (String.append p path)) (collect_routes (r :: rest) "").
Proof.
  assert (Hlaw : forall rs p' q',
             collect_routes rs (String.append p' q')
             = List.map (under p') (collect_routes rs q')).
  { intros rs p' q'. unfold collect_routes. apply map_flat_map_ext.
    apply Forall_forall. intros r _. apply collect_route_prefix. }
  split; [apply Hlaw |].
  intros path r rest app_class.
  rewrite <- (Hlaw (r :: rest) (String.append p path) "").
  unfold collect_routes. cbn [flat_map collect_route]. rewrite app_nil_r.
  replace (String.append (String.append p path) "") with (String.append p path);
    [reflexivity |].
  generalize (String.append p path). intros s.
  induction s as [| c s IH]; [reflexivity |]. rewrite append_cons, <- IH. reflexivity.
Qed.

#[global] Instance str_le_total : Total str_le.
Proof. intros s t. apply String.leb_total. Qed.

(** X22: the methods shown for a route are its methods other than
    [HEAD] and [OPTIONS], each once, in ascending order, joined by a
    comma and a space. *)
Theorem shown_methods_lists_the_rest (methods : gset string) :
  let l := sorted (methods ∖ {[ "HEAD"; "OPTIONS" ]}) in
  shown_methods methods = String.concat ", " l
  /\ (forall x, x ∈ l <-> x ∈ methods /\ x <> "HEAD" /\ x <> "OPTIONS")
  /\ NoDup l
  /\ Sorted str_le l.
Proof.
  cbn zeta. unfold sorted. split; [reflexivity |].
  pose proof (merge_sort_Permutation str_le (elements (methods ∖ {[ "HEAD"; "OPTIONS" ]})))
    as Hperm.
  split; [| split].
  - intros x. rewrite Hperm, elem_of_elements, elem_of_difference, elem_of_union,
      !elem_of_singleton. tauto.
  - rewrite Hperm. apply NoDup_elements.
  - apply Sorted_merge_sort. apply _.
Qed.

(** The listing of a small application. *)
Lemma collect_routes_demo :
  collect_routes demo_routes ""
  = [MkRouteRow "GET" "/" "app.views.index";
     MkRouteRow "GET, POST" "/api/v1/users" "app.views.get_users";
     MkRouteRow "WS" "/api/v1/ws" "app.views.socket";
     MkRouteRow "MOUNT" "/api/v1/static" "starlette.staticfiles.StaticFiles";
     MkRouteRow "ANY" "/any" "handler"].
Proof. vm_compute. reflexivity. Qed.

(** ** Mail *)

Section MailFacts.

Variable Prepared : Type.
Variable get_template : string -> option Exn.
Variable render : string -> gmap string CtxValue -> PyResult string.
Variable fastmail_sender : Email -> string.
Variable prepare_message : Email -> PyResult Prepared.
Variable smtp_send : list Prepared -> option Exn.
Variable resend_send : ResendPayload -> option Exn.

Local Abbreviation render_message := (Mail.render_message get_template render).
Local Abbreviation renders := (Mail.renders get_template render).
Local Abbreviation render_loop := (Mail.render_loop get_template render).
Local Abbreviation send_messages :=
  (Mail.send_messages Prepared get_template render fastmail_sender prepare_message
                 smtp_send resend_send).
Local Abbreviation sender_loop := (Mail.sender_loop Prepared fastmail_sender resend_send).
Local Abbreviation send_email :=
  (Mail.send_email Prepared get_template render fastmail_sender prepare_message
              smtp_send resend_send).
Local Abbreviation send_message :=
  (Mail.send_message Prepared get_template render fastmail_sender prepare_message
                smtp_send resend_send).

Lemma render_loop_raises (messages : list Email) :
  Exists (fun m => ~ renders m) messages ->
  exists e, fst (render_loop messages) = Some e.
Proof.
  induction 1 as [m rest Hm | m rest _ IH]; cbn [Mail.render_loop].
  - destruct (render_message m) as [m' | e] eqn:E.
    + exfalso. apply Hm. now exists m'.
    + now exists e.
  - destruct (render_message m) as [m' | e] eqn:E.
    + destruct (render_loop rest) as [raised rest'] eqn:R.
      destruct IH as [e He]. exists e. exact He.
    + now exists e.
Qed.

Lemma render_loop_ok (messages : list Email) :
  Forall renders messages ->
  exists rendered,
    render_loop messages = (None, rendered) /\
    Forall2 (fun m m' => render_message m = Returned m') messages rendered.
Proof.
  induction 1 as [| m rest [m' Hm] _ [rendered [IH1 IH2]]]; cbn [Mail.render_loop].
  - exists []. split; [reflexivity | constructor].
  - rewrite Hm, IH1. exists (m' :: rendered). split; [reflexivity |].
    constructor; assumption.
Qed.

(** X23: [send_messages] renders every message before it delivers any:
    if one message of the batch cannot be rendered (template missing,
    context [None], rendering error), the call raises and no delivery
    service has been called, whatever the sender. *)
Theorem render_failure_delivers_nothing
    (mail_sender : option MailSender) (messages : list Email) (log : list (Mail.Delivery Prepared)) :
  Exists (fun m => ~ renders m) messages ->
  exists e,
    Mail.mo_raised (send_messages mail_sender messages log) = Some e /\
    Mail.mo_log (send_messages mail_sender messages log) = log.
Proof.
  intros H. destruct (render_loop_raises messages H) as [e He].
  unfold Mail.send_messages.
  destruct (render_loop messages) as [raised rest]. cbn in He. subst raised.
  exists e. split; reflexivity.
Qed.

Lemma sender_loop_resend (messages : list Email) (log : list (Mail.Delivery Prepared)) :
  (forall p, resend_send p = None) ->
  let out := sender_loop Resend messages log in
  Mail.mo_raised out = None /\
  Mail.mo_messages out =
    List.map (fun m => set_template_context None (set_sender (fastmail_sender m) m)) messages /\
  Mail.mo_log out =
    log ++ List.map (fun m => Mail.ViaResend (resend_payload
             (set_template_context None (set_sender (fastmail_sender m) m)))) messages.
Proof.
  intros Hsend. revert log.
  induction messages as [| m rest IH]; intros log; cbn [Mail.sender_loop].
  - cbn. rewrite app_nil_r. repeat split.
  - cbn [Mail.sender_send_message]. rewrite Hsend.
    destruct (IH (log ++
      [Mail.ViaResend (resend_payload
         (set_template_context None (set_sender (fastmail_sender m) m)))]))
      as (H1 & H2 & H3).
    cbn [Mail.mo_raised Mail.mo_messages Mail.mo_log List.map].
    rewrite H1, H2, H3, <- app_assoc. repeat split.
Qed.

(** X24: [Resend.send_message] clears the context of the message it
    sends.  So after a batch has gone out through [Resend] (one call to
    the service per message, in order), every message of the batch has
    lost its context, and sending the same messages again raises the
    [TypeError] of unpacking [None] without a further call to the
    service. *)
Theorem resend_consumes_context (messages : list Email) (log : list (Mail.Delivery Prepared)) :
  Forall renders messages ->
  (forall p, resend_send p = None) ->
  messages <> [] ->
  let out := send_messages (Some Resend) messages log in
  Mail.mo_raised out = None /\
  (exists payloads,
      Mail.mo_log out = log ++ List.map Mail.ViaResend payloads /\
      List.map rp_to payloads = List.map em_recipients messages) /\
  Forall (fun m => em_template_context m = None) (Mail.mo_messages out) /\
  let again := send_messages (Some Resend) (Mail.mo_messages out) (Mail.mo_log out) in
  Mail.mo_raised again = Some unpack_none_error /\ Mail.mo_log again = Mail.mo_log out.
Proof.
  intros Hr Hsend Hne out.
  destruct (render_loop_ok messages Hr) as [rendered [Hloop Hall]].
  assert (Hout : out = sender_loop Resend rendered log).
  { subst out. unfold Mail.send_messages. now rewrite Hloop. }
  destruct (sender_loop_resend rendered log Hsend) as (H1 & H2 & H3).
  rewrite <- Hout in H1, H2, H3.
  split; [exact H1 |]. split; [| split].
  - exists (List.map (fun m => resend_payload
             (set_template_context None (set_sender (fastmail_sender m) m))) rendered).
    split.
    + rewrite H3. f_equal. now rewrite List.map_map.
    + rewrite List.map_map. cbn.
      clear - Hall. induction Hall as [| m m' ms ms' Hm _ IH]; [reflexivity |].
      cbn [List.map]. rewrite IH. f_equal.
      unfold Mail.render_message in Hm.
      destruct (get_template (em_template m)); [discriminate |].
      destruct (em_template_context m); [| discriminate].
      destruct (render (em_template m) g); [| discriminate].
      injection Hm as <-. reflexivity.
  - rewrite H2. apply Forall_forall. intros m Hin.
    apply list_elem_of_fmap in Hin as [m0 [-> _]]. reflexivity.
  - intros again. subst again. rewrite H2.
    destruct Hall as [| m m' ms ms' Hm _]; [congruence |].
    assert (Ht : get_template (em_template m') = None).
    { unfold Mail.render_message in Hm.
      destruct (get_template (em_template m)) eqn:E; [discriminate |].
      destruct (em_template_context m); [| discriminate].
      destruct (render (em_template m) g); [| discriminate].
      injection Hm as <-. exact E. }
    unfold Mail.send_messages. cbn [List.map Mail.render_loop].
    assert (Hn : render_message
                   (set_template_context None (set_sender (fastmail_sender m') m'))
                 = Raised unpack_none_error).
    { unfold Mail.render_message. cbn [em_template em_template_context
        set_template_context set_sender]. now rewrite Ht. }
    rewrite Hn. split; reflexivity.
Qed.

Lemma render_loop_length (messages : list Email) :
  List.length (snd (render_loop messages)) = List.length messages.
Proof.
  induction messages as [| m rest IH]; [reflexivity |].
  cbn [Mail.render_loop]. destruct (render_message m); [| reflexivity].
  destruct (render_loop rest) as [raised rest']. cbn in *. now rewrite IH.
Qed.

Lemma prepare_loop_length (messages : list Email) (batch : list Prepared) :
  Mail.prepare_loop Prepared prepare_message messages = Returned batch ->
  List.length batch = List.length messages.
Proof.
  revert batch. induction messages as [| m rest IH]; intros batch; cbn [Mail.prepare_loop].
  - now intros [= <-].
  - destruct (prepare_message m); [| discriminate].
    destruct (Mail.prepare_loop Prepared prepare_message rest); [| discriminate].
    intros [= <-]. cbn. f_equal. now apply IH.
Qed.

(** X25: without a [MAIL_SENDER], delivery is all or nothing: a call of
    [send_messages] either leaves the delivery services untouched, or
    hands SMTP one single batch holding one prepared message for every
    message given.  It never calls [Resend]. *)
Theorem smtp_sends_one_batch (messages : list Email) (log : list (Mail.Delivery Prepared)) :
  let out := send_messages None messages log in
  Mail.mo_log out = log \/
  exists batch,
    Mail.mo_log out = log ++ [Mail.ViaSmtp batch] /\
    List.length batch = List.length messages /\
    Mail.mo_raised out = smtp_send batch.
Proof.
  cbn zeta. unfold Mail.send_messages.
  pose proof (render_loop_length messages) as Hlen.
  destruct (render_loop messages) as [[e |] rendered]; [now left |].
  cbn [snd] in Hlen.
  destruct (Mail.prepare_loop Prepared prepare_message rendered) as [batch | e] eqn:E;
    [| now left].
  right. exists batch. repeat split.
  rewrite <- Hlen. now apply prepare_loop_length.
Qed.

(** X26: a message whose context is [None] is harmless when mails are
    switched off and fatal when they are on: [send_email] then raises a
    [TypeError] before anything is queued or delivered. *)
Theorem send_email_without_context
    (send_emails : bool) (background_tasks : option (list Email)) (message : Email)
    (request : option string) (log : list (Mail.Delivery Prepared)) :
  em_template_context message = None ->
  let out := send_email send_emails background_tasks message request log in
  Mail.ho_raised out = (if send_emails then Some item_assignment_error else None) /\
  Mail.ho_message out = message /\
  Mail.ho_tasks out = background_tasks /\
  Mail.ho_log out = log.
Proof.
  intros H. unfold Mail.send_email. rewrite H.
  destruct send_emails; cbn; repeat split.
Qed.

Lemma rstrip_slash_no_trailing (s : string) :
  forall r, rstrip_slash s <> String.append r "/".
Proof.
  induction s as [| c rest IH]; intros r; cbn [rstrip_slash].
  - destruct r; discriminate.
  - destruct (rstrip_slash rest) as [| c' r'] eqn:E.
    + destruct (Ascii.eqb_spec c "/"%char) as [-> | Hc].
      * destruct r; discriminate.
      * destruct r as [| a r]; cbn; [intros [= Heq]; exact (Hc Heq) |].
        destruct r; discriminate.
    + destruct r as [| a r]; cbn; [discriminate |].
      intros [= _ H]. exact (IH r H).
Qed.

Lemma rstrip_slash_spec (s : string) :
  exists n, s = String.append (rstrip_slash s) (slashes n).
Proof.
  induction s as [| c rest [n IH]]; [exists 0%nat; reflexivity |].
  cbn [rstrip_slash]. destruct (rstrip_slash rest) as [| c' r'] eqn:E.
  - cbn in IH. subst rest. destruct (Ascii.eqb_spec c "/"%char) as [-> | Hc].
    + exists (S n). reflexivity.
    + exists n. reflexivity.
  - exists n.
    change (String c rest = String c (String.append (String c' r') (slashes n))).
    f_equal. exact IH.
Qed.

Lemma last_char_append (r : string) : last_char (String.append r "/") = Some "/"%char.
Proof.
  induction r as [| a r IH]; [reflexivity |].
  cbn [String.append]. destruct r; [reflexivity |]. exact IH.
Qed.

(** X27: with background tasks, [send_email] of a message that has a
    context never raises and never delivers: it queues one task, for
    the message with [base_url] bound in its context, to the URL of the
    request without its trailing slashes, or to [Config.BASE_URL] when
    there is no request.  A missing template or a failing SMTP server
    is then not seen by the caller. *)
Theorem send_email_background_defers
    (tasks : list Email) (message : Email) (ctx : gmap string CtxValue)
    (request : option string) (log : list (Mail.Delivery Prepared)) :
  em_template_context message = Some ctx ->
  let out := send_email true (Some tasks) message request log in
  Mail.ho_raised out = None /\
  Mail.ho_log out = log /\
  exists url,
    Mail.ho_tasks out = Some (tasks ++ [Mail.ho_message out]) /\
    em_template_context (Mail.ho_message out) = Some (<["base_url" := CtxStr url]> ctx) /\
    (forall r, url <> String.append r "/") /\
    (forall u, request = Some u -> exists n, u = String.append url (slashes n)) /\
    (request = None -> url = BASE_URL).
Proof.
  intros H. unfold Mail.send_email. rewrite H. cbn.
  repeat split.
  destruct request as [u |].
  - exists (rstrip_slash u). repeat split;
      [apply rstrip_slash_no_trailing | intros ? [= <-]; apply rstrip_slash_spec | discriminate].
  - exists BASE_URL. repeat split; [| discriminate].
    intros r Habs. apply (f_equal last_char) in Habs.
    rewrite last_char_append in Habs. discriminate.
Qed.

(** X28: without background tasks the mail of [send_email] goes out
    before the hook returns, through SMTP: the hook raises exactly when
    rendering, preparing or the SMTP server fails, and on success SMTP
    has received one batch of one message. *)
Theorem send_email_synchronous
    (message : Email) (ctx : gmap string CtxValue)
    (request : option string) (log : list (Mail.Delivery Prepared)) :
  em_template_context message = Some ctx ->
  let out := send_email true None message request log in
  Mail.ho_tasks out = None /\
  (Mail.ho_raised out = None ->
   exists p, Mail.ho_log out = log ++ [Mail.ViaSmtp [p]] /\ smtp_send [p] = None) /\
  (Mail.ho_raised out <> None -> Mail.ho_log out = log \/ exists p, Mail.ho_log out = log ++ [Mail.ViaSmtp [p]]).
Proof.
  intros H. unfold Mail.send_email. rewrite H. cbn [negb].
  set (m := set_template_context _ message).
  unfold Mail.in_background, Mail.send_message, Mail.send_messages, MAIL_CONFIG_SENDER.
  cbn [Mail.render_loop].
  destruct (render_message m) as [m' | e]; cbn.
  - destruct (prepare_message m') as [p | e]; cbn.
    + split; [reflexivity |]. split.
      * intros Hs. now exists p.
      * intros _. right. now exists p.
    + split; [reflexivity |]. split; [discriminate | now left].
  - split; [reflexivity |]. split; [discriminate | now left].
Qed.

End MailFacts.

Lemma render_failure_delivers_nothing_witness :
  exists e,
    Mail.mo_raised
      (Mail.send_messages Email demo_get_template demo_render demo_fastmail_sender
         demo_prepare_message demo_smtp_send demo_resend_send
         None [welcome; welcome_unknown_template] []) = Some e /\
    Mail.mo_log
      (Mail.send_messages Email demo_get_template demo_render demo_fastmail_sender
         demo_prepare_message demo_smtp_send demo_resend_send
         None [welcome; welcome_unknown_template] []) = [].
Proof.
  apply (render_failure_delivers_nothing Email demo_get_template demo_render
           demo_fastmail_sender demo_prepare_message demo_smtp_send demo_resend_send).
  apply Exists_cons_tl, Exists_cons_hd. intros [m' H]. vm_compute in H. discriminate H.
Defined.

Lemma resend_consumes_context_witness :
  Mail.mo_raised
    (Mail.send_messages Email demo_get_template demo_render demo_fastmail_sender
       demo_prepare_message demo_smtp_send demo_resend_send (Some Resend)
       (Mail.mo_messages
          (Mail.send_messages Email demo_get_template demo_render demo_fastmail_sender
             demo_prepare_message demo_smtp_send demo_resend_send (Some Resend)
             [welcome] []))
       (Mail.mo_log
          (Mail.send_messages Email demo_get_template demo_render demo_fastmail_sender
             demo_prepare_message demo_smtp_send demo_resend_send (Some Resend)
             [welcome] [])))
  = Some unpack_none_error.
Proof.
  refine (proj1 (proj2 (proj2 (proj2
    (resend_consumes_context Email demo_get_template demo_render demo_fastmail_sender
       demo_prepare_message demo_smtp_send demo_resend_send [welcome] [] _ _ _))))).
  - constructor; [| constructor].
    exists (set_template_body "Confirm at http://localhost:8000" welcome).
    vm_compute. reflexivity.
  - intros p. reflexivity.
  - discriminate.
Defined.

Lemma send_email_without_context_witness :
  Mail.ho_raised
    (Mail.send_email Email demo_get_template demo_render demo_fastmail_sender
       demo_prepare_message demo_smtp_send demo_resend_send
       true None welcome_without_context None [])
  = Some item_assignment_error.
Proof.
  refine (proj1
    (send_email_without_context Email demo_get_template demo_render demo_fastmail_sender
       demo_prepare_message demo_smtp_send demo_resend_send
       true None welcome_without_context None [] _)).
  reflexivity.
Defined.

Lemma send_email_background_defers_witness :
  Mail.ho_raised
    (Mail.send_email Email demo_get_template demo_render demo_fastmail_sender
       demo_prepare_message demo_smtp_send demo_resend_send
       true (Some []) welcome_from_hook (Some "http://testserver/") [])
  = None.
Proof.
  refine (proj1
    (send_email_background_defers Email demo_get_template demo_render demo_fastmail_sender
       demo_prepare_message demo_smtp_send demo_resend_send
       [] welcome_from_hook {["user" := CtxObject "User"]} (Some "http://testserver/") [] _)).
  reflexivity.
Defined.

Lemma send_email_synchronous_witness :
  Mail.ho_tasks
    (Mail.send_email Email demo_get_template demo_render demo_fastmail_sender
       demo_prepare_message demo_smtp_send demo_resend_send
       true None welcome_from_hook (Some "http://testserver/") [])
  = None.
Proof.
  refine (proj1
    (send_email_synchronous Email demo_get_template demo_render demo_fastmail_sender
       demo_prepare_message demo_smtp_send demo_resend_send
       welcome_from_hook {["user" := CtxObject "User"]} (Some "http://testserver/") [] _)).
  reflexivity.
Defined.
